(** * The Lumina engine hook ([src/hooks/useLuminaEngine.ts])

    A shallow embedding of [useLuminaEngine]: the extension and MIME helpers,
    the argument sequences handed to the transcoding engine, the engine
    instances with their virtual file system, and the asynchronous operations
    [load], [sanitize], [sanitizeForCI], [removePII] and [applyPrivacyGrain]
    as computations over the hook's state that either resolve or reject. *)

From Stdlib Require Import ZArith NArith Ascii String List.
From Stdlib.Strings Require Import Byte.
From stdpp Require Import base option list gmap strings.

Import ListNotations.
Local Open Scope string_scope.
Local Open Scope list_scope.

(** ** Strings

    File names and extensions are sequences of 8-bit code units. *)

Module Str.

Definition isDot (c : ascii) : bool := Ascii.eqb c ".".

Fixpoint noDot (s : string) : bool :=
  match s with
  | EmptyString => true
  | String c r => negb (isDot c) && noDot r
  end.

(** [[^.]+$] tried at the start of [s]: one code unit or more, none of them a
    dot, up to the end of the input. *)
Definition nonDotsToEnd (s : string) : bool :=
  match s with
  | EmptyString => false
  | String _ _ => noDot s
  end.

(** [filename.match(/\.[^.]+$/)]: the leftmost position where a dot is
    followed by [[^.]+$]; the match is the text from that dot on. *)
Fixpoint matchExt (s : string) : option string :=
  match s with
  | EmptyString => None
  | String c r =>
      if isDot c && nonDotsToEnd r then Some s else matchExt r
  end.

(** [String.prototype.toLowerCase] on one code unit of the Latin-1 range:
    A-Z, and the accented capitals U+00C0 to U+00DE except U+00D7. *)
Definition lowerChar (c : ascii) : ascii :=
  let n := N_of_ascii c in
  if ((65 <=? n) && (n <=? 90))%N then ascii_of_N (n + 32)
  else if ((192 <=? n) && (n <=? 222) && negb (n =? 215))%N
       then ascii_of_N (n + 32)
  else c.

Fixpoint toLowerCase (s : string) : string :=
  match s with
  | EmptyString => EmptyString
  | String c r => String (lowerChar c) (toLowerCase r)
  end.

End Str.

(** ** [getExtension] and [getMimeType] *)

Definition getExtension (filename : string) : string :=
  match Str.matchExt filename with
  | Some m => m
  | None => ".mp4"
  end.

(** The object literal [mimeTypes], as its own properties in source order. *)
Definition mimeTypes : list (string * string) :=
  [ (".mp4", "video/mp4");
    (".webm", "video/webm");
    (".mov", "video/quicktime");
    (".avi", "video/x-msvideo");
    (".mkv", "video/x-matroska");
    (".mp3", "audio/mpeg");
    (".wav", "audio/wav");
    (".ogg", "audio/ogg");
    (".png", "image/png");
    (".jpg", "image/jpeg");
    (".jpeg", "image/jpeg");
    (".gif", "image/gif");
    (".webp", "image/webp") ].

Fixpoint ownProperty (key : string) (o : list (string * string)) : option string :=
  match o with
  | [] => None
  | (k, v) :: rest => if String.eqb k key then Some v else ownProperty key rest
  end.

(** What [mimeTypes[key]] can evaluate to.  [mimeTypes] is a plain object, so
    a key that is not an own property is looked up on [Object.prototype]; of
    its property names only [constructor] and [__proto__] survive
    [toLowerCase] unchanged, and both values are truthy. *)
Inductive MimeValue : Type :=
  | MimeString (s : string)
  | ObjectConstructor
  | ObjectPrototype.

Definition getMimeType (extension : string) : MimeValue :=
  let key := Str.toLowerCase extension in
  match ownProperty key mimeTypes with
  | Some v => MimeString v
  | None =>
      if String.eqb key "constructor" then ObjectConstructor
      else if String.eqb key "__proto__" then ObjectPrototype
      else MimeString "application/octet-stream"
  end.

(** ** Options *)

(** An optional property is [None] when it is absent or [undefined]. *)
Record SanitizeOptions : Type := {
  so_stripMetadata : option bool;
  so_deterministicEncoding : option bool;
  so_outputFormat : option string
}.

Record PIIRemovalOptions : Type := {
  pii_outputFormat : option string
}.

Record PrivacyGrainOptions : Type := {
  pg_outputFormat : option string;
  pg_stripMetadata : option bool
}.

(** The default parameter value [options = {}]. *)
Definition noSanitizeOptions : SanitizeOptions :=
  {| so_stripMetadata := None; so_deterministicEncoding := None;
     so_outputFormat := None |}.

Definition noPIIRemovalOptions : PIIRemovalOptions :=
  {| pii_outputFormat := None |}.

Definition noPrivacyGrainOptions : PrivacyGrainOptions :=
  {| pg_outputFormat := None; pg_stripMetadata := None |}.

(** A destructuring default [x = d] applies exactly when the property is
    [undefined]. *)
Definition orDefault (d : bool) (o : option bool) : bool :=
  match o with
  | Some b => b
  | None => d
  end.

(** [outputFormat || getExtension(file.name)]: the empty string is falsy. *)
Definition outputExtOf (outputFormat : option string) (filename : string) : string :=
  match outputFormat with
  | Some (String c r) => String c r
  | Some EmptyString | None => getExtension filename
  end.

Definition inputNameOf (filename : string) : string :=
  "input" +:+ getExtension filename.

Definition outputNameOf (outputExt : string) : string :=
  "output" +:+ outputExt.

(** ** Argument sequences

    [push] appends at the end of the array. *)

Definition push (args : list string) (items : list string) : list string :=
  args ++ items.

(** Lines 99 to 111 of [sanitize]. *)
Definition sanitizeArgs (stripMetadata deterministicEncoding : bool)
    (inputFileName outputFileName : string) : list string :=
  let ffmpegArgs := ["-i"; inputFileName] in
  let ffmpegArgs :=
    if stripMetadata then push ffmpegArgs ["-map_metadata"; "-1"]
    else ffmpegArgs in
  let ffmpegArgs :=
    if deterministicEncoding then
      push (push (push ffmpegArgs ["-fflags"; "+bitexact"])
                 ["-flags:v"; "+bitexact"])
           ["-flags:a"; "+bitexact"]
    else ffmpegArgs in
  push ffmpegArgs ["-y"; outputFileName].

(** Lines 211 to 218 of [applyPrivacyGrain]. *)
Definition grainArgs (stripMetadata : bool)
    (inputFileName outputFileName : string) : list string :=
  let ffmpegArgs := ["-i"; inputFileName] in
  let ffmpegArgs :=
    if stripMetadata then push ffmpegArgs ["-map_metadata"; "-1"]
    else ffmpegArgs in
  let ffmpegArgs := push ffmpegArgs ["-vf"; "noise=alls=3:allf=t+u"] in
  push ffmpegArgs ["-y"; outputFileName].

(** ** Values that cross the engine boundary *)

(** A thrown value: an [Error] with its message, or any other value (the
    text is only a description of it). *)
Inductive Thrown : Type :=
  | ErrorObject (message : string)
  | NotAnError (description : string).

(** [err instanceof Error ? err.message : fallback]. *)
Definition messageOf (fallback : string) (err : Thrown) : string :=
  match err with
  | ErrorObject message => message
  | NotAnError _ => fallback
  end.

Record File : Type := {
  file_name : string;
  file_bytes : list byte
}.

(** [FileData = Uint8Array | string], the result type of [readFile]. *)
Inductive FileData : Type :=
  | Uint8Array (bytes : list byte)
  | Text (s : string).

(** [new TextEncoder().encode]: UTF-8 of code units below U+0100. *)
Definition utf8Unit (c : ascii) : list byte :=
  let n := N_of_ascii c in
  if (n <? 128)%N then [byte_of_ascii c]
  else [byte_of_ascii (ascii_of_N (192 + n / 64));
        byte_of_ascii (ascii_of_N (128 + n mod 64))].

Fixpoint textEncode (s : string) : list byte :=
  match s with
  | EmptyString => []
  | String c r => utf8Unit c ++ textEncode r
  end.

(** [data instanceof Uint8Array ? data : new TextEncoder().encode(data)]. *)
Definition toUint8Array (data : FileData) : list byte :=
  match data with
  | Uint8Array bytes => bytes
  | Text s => textEncode s
  end.

(** [new Blob([bytes], { type })]; [blob_type] is the value passed as
    [type]. *)
Record Blob : Type := {
  blob_bytes : list byte;
  blob_type : MimeValue
}.

(** ** Engine instances and the hook *)

(** One [FFmpeg] object: its [loaded] flag, whether the hook's progress
    listener is registered on it, and its virtual file system. *)
Record FFmpeg : Type := {
  loaded : bool;
  progressListener : bool;
  files : gmap string (list byte)
}.

Definition newFFmpeg : FFmpeg :=
  {| loaded := false; progressListener := false; files := ∅ |}.

Record LuminaEngineState : Type := {
  isLoaded : bool;
  isProcessing : bool;
  progress : Z;
  error : option string
}.

Definition initialState : LuminaEngineState :=
  {| isLoaded := false; isProcessing := false; progress := 0; error := None |}.

(** Calls made on engine instances, in the order they are made. *)
Inductive EngineCall : Type :=
  | CallNew (id : nat)
  | CallOn (id : nat)
  | CallLoad (id : nat)
  | CallWriteFile (id : nat) (name : string) (data : list byte)
  | CallExec (id : nat) (args : list string)
  | CallReadFile (id : nat) (name : string)
  | CallDeleteFile (id : nat) (name : string).

(** The hook: the engine objects allocated so far (an object is named by its
    index), [ffmpegRef.current], the React state, every value the state has
    been set to (oldest first), and the engine calls made (oldest first). *)
Record Hook : Type := {
  instances : list FFmpeg;
  ffmpegRef : option nat;
  state : LuminaEngineState;
  updates : list LuminaEngineState;
  calls : list EngineCall
}.

Definition initialHook : Hook :=
  {| instances := []; ffmpegRef := None; state := initialState;
     updates := []; calls := [] |}.

(** ** The engine as the hook sees it

    The engine is opaque and every call on it can fail.  [Env] fixes what it
    does: which calls throw, and what a run of [exec] reports and leaves in
    the file system.  A progress report is given as the integer
    [Math.round(progress * 100)] of the reported fraction. *)
Record ExecResult : Type := {
  reported : list Z;
  filesAfter : gmap string (list byte);
  execThrows : option Thrown
}.

Record Env : Type := {
  fetchFileFault : File -> option Thrown;
  writeFileFault : string -> option Thrown;
  execResult : list string -> gmap string (list byte) -> ExecResult;
  readFileFault : string -> option Thrown;
  deleteFileFault : string -> option Thrown;
  noSuchFile : Thrown
}.

(** ** Computations that resolve or reject *)

Inductive Outcome (A : Type) : Type :=
  | Resolved (a : A)
  | Rejected (err : Thrown).

Arguments Resolved {A} a.
Arguments Rejected {A} err.

Definition M (A : Type) : Type := Hook -> Hook * Outcome A.

#[global] Instance M_ret : MRet M := fun A a h => (h, Resolved a).

#[global] Instance M_bind : MBind M := fun A B f m h =>
  match m h with
  | (h', Resolved a) => f a h'
  | (h', Rejected err) => (h', Rejected err)
  end.

Definition throw {A : Type} (err : Thrown) : M A :=
  fun h => (h, Rejected err).

Definition tryCatch {A : Type} (body : M A) (handler : Thrown -> M A) : M A :=
  fun h =>
    match body h with
    | (h', Resolved a) => (h', Resolved a)
    | (h', Rejected err) => handler err h'
    end.

Definition setHookState (s : LuminaEngineState) (h : Hook) : Hook :=
  {| instances := instances h; ffmpegRef := ffmpegRef h; state := s;
     updates := updates h ++ [s]; calls := calls h |}.

(** [setState((prev) => f(prev))]. *)
Definition setState (f : LuminaEngineState -> LuminaEngineState) : M unit :=
  fun h => (setHookState (f (state h)) h, Resolved tt).

Definition logCall (c : EngineCall) (h : Hook) : Hook :=
  {| instances := instances h; ffmpegRef := ffmpegRef h; state := state h;
     updates := updates h; calls := calls h ++ [c] |}.

Definition setInstances (l : list FFmpeg) (h : Hook) : Hook :=
  {| instances := l; ffmpegRef := ffmpegRef h; state := state h;
     updates := updates h; calls := calls h |}.

Definition setRef (r : option nat) (h : Hook) : Hook :=
  {| instances := instances h; ffmpegRef := r; state := state h;
     updates := updates h; calls := calls h |}.

Definition setFiles (fs : gmap string (list byte)) (e : FFmpeg) : FFmpeg :=
  {| loaded := loaded e; progressListener := progressListener e; files := fs |}.

Definition setLoaded (e : FFmpeg) : FFmpeg :=
  {| loaded := true; progressListener := progressListener e; files := files e |}.

Definition addProgressListener (e : FFmpeg) : FFmpeg :=
  {| loaded := loaded e; progressListener := true; files := files e |}.

Definition filesOf (id : nat) (h : Hook) : gmap string (list byte) :=
  match instances h !! id with
  | Some e => files e
  | None => ∅
  end.

Definition alterInstance (id : nat) (f : FFmpeg -> FFmpeg) (h : Hook) : Hook :=
  setInstances (alter f id (instances h)) h.

(** [ffmpegRef.current?.loaded], with the object when it is truthy. *)
Definition currentLoaded (h : Hook) : option nat :=
  match ffmpegRef h with
  | Some id =>
      match instances h !! id with
      | Some e => if loaded e then Some id else None
      | None => None
      end
  | None => None
  end.

(** ** Engine calls *)

Section Engine.

Variable env : Env.

(** [fetchFile(file)]: the bytes of the file. *)
Definition fetchFile (file : File) : M (list byte) :=
  fun h =>
    match fetchFileFault env file with
    | Some err => (h, Rejected err)
    | None => (h, Resolved (file_bytes file))
    end.

Definition writeFile (id : nat) (name : string) (data : list byte) : M unit :=
  fun h =>
    let h := logCall (CallWriteFile id name data) h in
    match writeFileFault env name with
    | Some err => (h, Rejected err)
    | None =>
        (alterInstance id (fun e => setFiles (<[name := data]> (files e)) e) h,
         Resolved tt)
    end.

Definition readFile (id : nat) (name : string) : M FileData :=
  fun h =>
    let h := logCall (CallReadFile id name) h in
    match readFileFault env name with
    | Some err => (h, Rejected err)
    | None =>
        match filesOf id h !! name with
        | Some data => (h, Resolved (Uint8Array data))
        | None => (h, Rejected (noSuchFile env))
        end
    end.

Definition deleteFile (id : nat) (name : string) : M unit :=
  fun h =>
    let h := logCall (CallDeleteFile id name) h in
    match deleteFileFault env name with
    | Some err => (h, Rejected err)
    | None =>
        match filesOf id h !! name with
        | Some _ =>
            (alterInstance id (fun e => setFiles (delete name (files e)) e) h,
             Resolved tt)
        | None => (h, Rejected (noSuchFile env))
        end
    end.

(** The listener registered by [load]:
    [setState((prev) => ({ ...prev, progress: Math.round(progress * 100) }))]. *)
Definition onProgress (percent : Z) (h : Hook) : Hook :=
  setHookState
    {| isLoaded := isLoaded (state h); isProcessing := isProcessing (state h);
       progress := percent; error := error (state h) |} h.

Definition listening (id : nat) (h : Hook) : bool :=
  match instances h !! id with
  | Some e => progressListener e
  | None => false
  end.

(** The progress events of one run, delivered in order to the listener of
    the instance, if it has one. *)
Definition reportProgress (id : nat) (percents : list Z) (h : Hook) : Hook :=
  if listening id h then fold_left (fun h p => onProgress p h) percents h
  else h.

(** [exec(args)]: the run reports its progress, leaves its files, and then
    resolves or rejects.  The exit code it resolves with is not looked at. *)
Definition exec (id : nat) (args : list string) : M unit :=
  fun h =>
    let h := logCall (CallExec id args) h in
    let r := execResult env args (filesOf id h) in
    let h := reportProgress id (reported r) h in
    let h := alterInstance id (setFiles (filesAfter r)) h in
    match execThrows r with
    | Some err => (h, Rejected err)
    | None => (h, Resolved tt)
    end.

(** ** [load] *)

(** What the awaited steps of a [load] call do: a [toBlobURL] fetch rejects,
    or [ffmpeg.load] is called and rejects or resolves. *)
Inductive LoadResult : Type :=
  | BlobURLRejects (err : Thrown)
  | EngineLoadRejects (err : Thrown)
  | EngineLoadResolves.

(** [load] up to its first [await].  [None]: the call returned at line 39.
    [Some id]: the call is suspended and [id] is its local [ffmpeg]. *)
Definition loadStart (h : Hook) : Hook * option nat :=
  match currentLoaded h with
  | Some _ =>
      (setHookState
         {| isLoaded := true; isProcessing := isProcessing (state h);
            progress := progress (state h); error := error (state h) |} h,
       None)
  | None =>
      let ffmpeg := length (instances h) in
      let h := logCall (CallNew ffmpeg) (setInstances (instances h ++ [newFFmpeg]) h) in
      let h := setRef (Some ffmpeg) h in
      let h := logCall (CallOn ffmpeg) (alterInstance ffmpeg addProgressListener h) in
      (h, Some ffmpeg)
  end.

(** The rest of a suspended [load] call, lines 50 to 61. *)
Definition loadFinish (ffmpeg : nat) (r : LoadResult) : M unit :=
  tryCatch
    (match r with
     | BlobURLRejects err => throw err
     | EngineLoadRejects err =>
         (fun h => (logCall (CallLoad ffmpeg) h, Rejected err))
     | EngineLoadResolves =>
         (fun h => (alterInstance ffmpeg setLoaded (logCall (CallLoad ffmpeg) h),
                    Resolved tt)) ;;
         setState (fun prev =>
           {| isLoaded := true; isProcessing := isProcessing prev;
              progress := progress prev; error := None |})
     end)
    (fun err =>
       let errorMessage := messageOf "Failed to load FFmpeg" err in
       setState (fun prev =>
         {| isLoaded := isLoaded prev; isProcessing := isProcessing prev;
            progress := progress prev; error := Some errorMessage |}) ;;
       throw err).

(** A [load] call that runs to its end before anything else happens. *)
Definition load (r : LoadResult) : M unit :=
  fun h =>
    match loadStart h with
    | (h', None) => (h', Resolved tt)
    | (h', Some ffmpeg) => loadFinish ffmpeg r h'
    end.

(** ** [sanitize] *)

Definition notLoadedError : Thrown :=
  ErrorObject "FFmpeg not loaded. Call load() first.".

(** Line 90 and line 202. *)
Definition enterProcessing (prev : LuminaEngineState) : LuminaEngineState :=
  {| isLoaded := isLoaded prev; isProcessing := true; progress := 0;
     error := None |}.

(** Line 123 and line 230. *)
Definition finishProcessing (prev : LuminaEngineState) : LuminaEngineState :=
  {| isLoaded := isLoaded prev; isProcessing := false; progress := 100;
     error := error prev |}.

(** Line 128 and line 235. *)
Definition failProcessing (errorMessage : string) (prev : LuminaEngineState)
    : LuminaEngineState :=
  {| isLoaded := isLoaded prev; isProcessing := false;
     progress := progress prev; error := Some errorMessage |}.

Definition sanitize (file : File) (options : SanitizeOptions) : M Blob :=
  let stripMetadata := orDefault true (so_stripMetadata options) in
  let deterministicEncoding := orDefault true (so_deterministicEncoding options) in
  let outputFormat := so_outputFormat options in
  fun h =>
    match currentLoaded h with
    | None => throw notLoadedError h
    | Some ffmpeg =>
        (setState enterProcessing ;;
         tryCatch
           (let inputFileName := inputNameOf (file_name file) in
            let outputExt := outputExtOf outputFormat (file_name file) in
            let outputFileName := outputNameOf outputExt in
            bytes ← fetchFile file;
            writeFile ffmpeg inputFileName bytes ;;
            let ffmpegArgs :=
              sanitizeArgs stripMetadata deterministicEncoding
                           inputFileName outputFileName in
            exec ffmpeg ffmpegArgs ;;
            data ← readFile ffmpeg outputFileName;
            let mimeType := getMimeType outputExt in
            let uint8Array := toUint8Array data in
            let blob := {| blob_bytes := uint8Array; blob_type := mimeType |} in
            deleteFile ffmpeg inputFileName ;;
            deleteFile ffmpeg outputFileName ;;
            setState finishProcessing ;;
            mret blob)
           (fun err =>
              let errorMessage := messageOf "Sanitization failed" err in
              setState (failProcessing errorMessage) ;;
              throw err)) h
    end.

Definition sanitizeForCI (file : File) (outputFormat : option string) : M Blob :=
  sanitize file
    {| so_stripMetadata := Some true; so_deterministicEncoding := Some true;
       so_outputFormat := outputFormat |}.

Definition removePII (file : File) (options : PIIRemovalOptions) : M Blob :=
  sanitize file
    {| so_stripMetadata := Some true; so_deterministicEncoding := Some true;
       so_outputFormat := pii_outputFormat options |}.

(** ** [applyPrivacyGrain] *)

Definition applyPrivacyGrain (file : File) (options : PrivacyGrainOptions) : M Blob :=
  let outputFormat := pg_outputFormat options in
  let stripMetadata := orDefault true (pg_stripMetadata options) in
  fun h =>
    match currentLoaded h with
    | None => throw notLoadedError h
    | Some ffmpeg =>
        (setState enterProcessing ;;
         tryCatch
           (let inputFileName := inputNameOf (file_name file) in
            let outputExt := outputExtOf outputFormat (file_name file) in
            let outputFileName := outputNameOf outputExt in
            bytes ← fetchFile file;
            writeFile ffmpeg inputFileName bytes ;;
            let ffmpegArgs := grainArgs stripMetadata inputFileName outputFileName in
            exec ffmpeg ffmpegArgs ;;
            data ← readFile ffmpeg outputFileName;
            let mimeType := getMimeType outputExt in
            let uint8Array := toUint8Array data in
            let blob := {| blob_bytes := uint8Array; blob_type := mimeType |} in
            deleteFile ffmpeg inputFileName ;;
            deleteFile ffmpeg outputFileName ;;
            setState finishProcessing ;;
            mret blob)
           (fun err =>
              let errorMessage := messageOf "Privacy grain failed" err in
              setState (failProcessing errorMessage) ;;
              throw err)) h
    end.

End Engine.


(** * The components around the hook

    [useMediaProcessor], [DownloadButton], [FileUpload], [AdjustmentPanel]
    and [App]: the handlers as functions on the state they read and set. *)

(** A [File] as the page sees it: with its declared media type. *)
Record Upload : Type := {
  up_file : File;
  up_type : string
}.

(** [s.startsWith(p)]. *)
Definition startsWith (p s : string) : bool := String.prefix p s.

(** [Adjustments]; the values come from range inputs with whole steps. *)
Record Adjustments : Type := {
  brightness : Z;
  contrast : Z;
  saturation : Z
}.

Definition defaultAdjustments : Adjustments :=
  {| brightness := 0; contrast := 0; saturation := 0 |}.

(** ** [useMediaProcessor] *)

(** The [format] parameter of [processImage]. *)
Inductive ImageFormat : Type := Png | Jpeg.

Definition formatName (format : ImageFormat) : string :=
  match format with
  | Png => "png"
  | Jpeg => "jpeg"
  end.

(** The page: the object URLs created so far and those not yet revoked, the
    downloads triggered through a clicked link, and the console errors. *)
Record Page : Type := {
  created : nat;
  live : list nat;
  downloads : list (Blob * string);
  consoleErrors : list Thrown
}.

Definition emptyPage : Page :=
  {| created := 0; live := []; downloads := []; consoleErrors := [] |}.

(** [URL.createObjectURL]: a fresh URL, live until revoked. *)
Definition createObjectURL (p : Page) : Page * nat :=
  ({| created := S (created p); live := live p ++ [created p];
      downloads := downloads p; consoleErrors := consoleErrors p |},
   created p).

(** [URL.revokeObjectURL]. *)
Definition revokeObjectURL (url : nat) (p : Page) : Page :=
  {| created := created p;
     live := List.filter (fun u => negb (Nat.eqb u url)) (live p);
     downloads := downloads p; consoleErrors := consoleErrors p |}.

(** A click on a link with [href] and [download] set. *)
Definition clickLink (blob : Blob) (filename : string) (p : Page) : Page :=
  {| created := created p; live := live p;
     downloads := downloads p ++ [(blob, filename)];
     consoleErrors := consoleErrors p |}.

(** [console.error]. *)
Definition consoleError (err : Thrown) (p : Page) : Page :=
  {| created := created p; live := live p; downloads := downloads p;
     consoleErrors := consoleErrors p ++ [err] |}.

(** [downloadBlob(blob, filename)]. *)
Definition downloadBlob (blob : Blob) (filename : string) (p : Page) : Page :=
  let '(p, url) := createObjectURL p in
  let p := clickLink blob filename p in
  revokeObjectURL url p.

(** What the browser does with an image: whether it decodes, whether a 2D
    context is available, and the bytes [toBlob] encodes for the drawn and
    filtered image, if any.  The filter text and the quality argument are
    inside [encodes]. *)
Record Browser : Type := {
  decodes : Upload -> bool;
  context2d : bool;
  encodes : Upload -> Adjustments -> ImageFormat -> option (list byte)
}.

(** [processImage(file, adjustments, format)]: the page afterwards and the
    settled promise. *)
Definition processImage (browser : Browser) (file : Upload)
    (adjustments : Adjustments) (format : ImageFormat) (p : Page)
    : Page * Outcome Blob :=
  let '(p, _) := createObjectURL p in
  if negb (decodes browser file) then
    (p, Rejected (ErrorObject "Failed to load image"))
  else if negb (context2d browser) then
    (p, Rejected (ErrorObject "Could not get canvas context"))
  else
    match encodes browser file adjustments format with
    | Some bytes =>
        (p, Resolved {| blob_bytes := bytes;
                       blob_type := MimeString ("image/" +:+ formatName format) |})
    | None => (p, Rejected (ErrorObject "Failed to create blob"))
    end.

(** ** [DownloadButton] *)

Module Download.

Definition notSlashOrDot (c : ascii) : bool :=
  negb (Ascii.eqb c "/") && negb (Ascii.eqb c ".").

Fixpoint allNotSlashOrDot (s : string) : bool :=
  match s with
  | EmptyString => true
  | String c r => notSlashOrDot c && allNotSlashOrDot r
  end.

(** [[^/.]+$] tried at the start of [s]. *)
Definition tailMatches (s : string) : bool :=
  match s with
  | EmptyString => false
  | String _ _ => allNotSlashOrDot s
  end.

(** [name.replace(/\.[^/.]+$/, '')]: the text before the leftmost match,
    which runs to the end; the whole name when there is no match. *)
Fixpoint baseName (s : string) : string :=
  match s with
  | EmptyString => EmptyString
  | String c r =>
      if Str.isDot c && tailMatches r then EmptyString
      else String c (baseName r)
  end.

(** The button: its [isProcessing] state with every value it was set to. *)
Record Button : Type := {
  processing : bool;
  processingSet : list bool
}.

Definition idleButton : Button := {| processing := false; processingSet := [] |}.

Definition setIsProcessing (b : bool) (btn : Button) : Button :=
  {| processing := b; processingSet := processingSet btn ++ [b] |}.

Definition isVideo (file : Upload) : bool := startsWith "video/" (up_type file).

(** The file passed as a blob. *)
Definition fileBlob (file : Upload) : Blob :=
  {| blob_bytes := file_bytes (up_file file);
     blob_type := MimeString (up_type file) |}.

Definition formatOf (file : Upload) : ImageFormat :=
  if String.eqb (up_type file) "image/jpeg" then Jpeg else Png.

Definition extensionOf (format : ImageFormat) : string :=
  match format with
  | Jpeg => "jpg"
  | Png => "png"
  end.

Definition editedName (file : Upload) : string :=
  baseName (file_name (up_file file)) +:+ "-edited."
    +:+ extensionOf (formatOf file).

(** [handleDownload()]; it never rejects. *)
Definition handleDownload (browser : Browser) (file : Upload)
    (adjustments : Adjustments) (st : Button * Page) : Button * Page :=
  let '(btn, p) := st in
  if isVideo file then
    (btn, downloadBlob (fileBlob file) (file_name (up_file file)) p)
  else
    let btn := setIsProcessing true btn in
    let format := formatOf file in
    let p :=
      match processImage browser file adjustments format p with
      | (p, Resolved blob) => downloadBlob blob (editedName file) p
      | (p, Rejected error) => consoleError error p
      end in
    (setIsProcessing false btn, p).

End Download.

(** ** [AdjustmentPanel] *)

Inductive AdjustmentKey : Type := KeyBrightness | KeyContrast | KeySaturation.

(** [{ ...adjustments, [key]: value }]. *)
Definition withKey (key : AdjustmentKey) (value : Z) (a : Adjustments)
    : Adjustments :=
  match key with
  | KeyBrightness =>
      {| brightness := value; contrast := contrast a; saturation := saturation a |}
  | KeyContrast =>
      {| brightness := brightness a; contrast := value; saturation := saturation a |}
  | KeySaturation =>
      {| brightness := brightness a; contrast := contrast a; saturation := value |}
  end.

Definition hasChanges (a : Adjustments) : bool :=
  negb (brightness a =? 0)%Z || negb (contrast a =? 0)%Z
  || negb (saturation a =? 0)%Z.

(** ** [App] and [FileUpload] *)

(** The state of [App] with the [isDragging] state of its [FileUpload]. *)
Record AppState : Type := {
  file : option Upload;
  adjustments : Adjustments;
  isDragging : bool
}.

Definition initialApp : AppState :=
  {| file := None; adjustments := defaultAdjustments; isDragging := false |}.

Definition handleFileSelect (selected : Upload) (s : AppState) : AppState :=
  {| file := Some selected; adjustments := defaultAdjustments;
     isDragging := isDragging s |}.

Definition handleReset (s : AppState) : AppState :=
  {| file := file s; adjustments := defaultAdjustments;
     isDragging := isDragging s |}.

Definition handleClear (s : AppState) : AppState :=
  {| file := None; adjustments := defaultAdjustments;
     isDragging := isDragging s |}.

Definition setIsDragging (b : bool) (s : AppState) : AppState :=
  {| file := file s; adjustments := adjustments s; isDragging := b |}.

Definition setAdjustments (a : Adjustments) (s : AppState) : AppState :=
  {| file := file s; adjustments := a; isDragging := isDragging s |}.

Definition acceptedType (f : Upload) : bool :=
  startsWith "image/" (up_type f) || startsWith "video/" (up_type f).

(** [handleDrop]; [files] is [None] when the list itself is missing. *)
Definition handleDrop (files : option (list Upload)) (s : AppState) : AppState :=
  let s := setIsDragging false s in
  match files with
  | Some (first :: _) =>
      if acceptedType first then handleFileSelect first s else s
  | Some [] | None => s
  end.

(** [handleChange] of the file input. *)
Definition handleChange (files : option (list Upload)) (s : AppState) : AppState :=
  match files with
  | Some (first :: _) => handleFileSelect first s
  | Some [] | None => s
  end.

(** What the user can do.  The upload surface is rendered only while no file
    is selected; the sliders and the clear button only while one is; the
    reset button only while [hasChanges] holds. *)
Inductive UserEvent : Type :=
  | DragEnter
  | DragLeave
  | DragOver
  | Drop (files : option (list Upload))
  | Browse (files : option (list Upload))
  | Slide (key : AdjustmentKey) (value : Z)
  | Reset
  | Clear.

(** [FileUpload] is unmounted once a file is selected, and starts with
    [isDragging] false when it is mounted again. *)
Definition unmountUpload (s : AppState) : AppState :=
  match file s with
  | Some _ => setIsDragging false s
  | None => s
  end.

Definition react (e : UserEvent) (s : AppState) : AppState :=
  match file s with
  | None =>
      unmountUpload
        match e with
        | DragEnter => setIsDragging true s
        | DragLeave => setIsDragging false s
        | DragOver => s
        | Drop files => handleDrop files s
        | Browse files => handleChange files s
        | Slide _ _ | Reset | Clear => s
        end
  | Some _ =>
      match e with
      | Slide key value => setAdjustments (withKey key value (adjustments s)) s
      | Reset => if hasChanges (adjustments s) then handleReset s else s
      | Clear => handleClear s
      | DragEnter | DragLeave | DragOver | Drop _ | Browse _ => s
      end
  end.

Definition reactAll (es : list UserEvent) (s : AppState) : AppState :=
  fold_left (fun s e => react e s) es s.

Definition isBrowse (e : UserEvent) : bool :=
  match e with
  | Browse _ => true
  | _ => false
  end.
(** * Vocabulary of the properties *)






Definition withProgress (percent : Z) (s : LuminaEngineState) : LuminaEngineState :=
  {| isLoaded := isLoaded s; isProcessing := isProcessing s;
     progress := percent; error := error s |}.

Definition withProcessing (b : bool) (h : Hook) : Hook :=
  {| instances := instances h; ffmpegRef := ffmpegRef h;
     state :=
       {| isLoaded := isLoaded (state h); isProcessing := b;
          progress := progress (state h); error := error (state h) |};
     updates := updates h; calls := calls h |}.

(** The percent shown after the reports of one run on instance [id]. *)
Definition lastReported (id : nat) (percents : list Z) (h : Hook) : Z :=
  if listening id h then List.last percents (progress (state h))
  else progress (state h).

(** The state is the last value it was set to. *)
Definition synced (h : Hook) : Prop :=
  exists earlier, updates h = earlier ++ [state h].

(** [at_] is a hook of a call made at [h], past its entry: the entry update
    is recorded, and since then only the percent has changed. *)
Definition started (h at_ : Hook) : Prop :=
  synced at_ /\
  (exists rest, updates at_ = updates h ++ enterProcessing (state h) :: rest) /\
  (exists percent, state at_ = withProgress percent (enterProcessing (state h))).

(** ** The stages of one staged run

    Both [sanitize] and [applyPrivacyGrain] run the same stages on the loaded
    engine [id]; they differ in the argument sequence [args] and in the
    fallback message [fallback].  Each definition below is the hook at one
    point of the [try] block, as a function of the hook at the call. *)

Section Stages.

Variable env : Env.
Variable id : nat.
Variable file : File.
Variable outputFormat : option string.
Variable args : list string.
Variable fallback : string.

Definition inName : string := inputNameOf (file_name file).
Definition outExt : string := outputExtOf outputFormat (file_name file).
Definition outName : string := outputNameOf outExt.

Definition entered (h : Hook) : Hook :=
  setHookState (enterProcessing (state h)) h.

Definition writing (h : Hook) : Hook :=
  logCall (CallWriteFile id inName (file_bytes file)) (entered h).

Definition written (h : Hook) : Hook :=
  alterInstance id
    (fun e => setFiles (<[inName := file_bytes file]> (files e)) e) (writing h).

Definition executing (h : Hook) : Hook :=
  logCall (CallExec id args) (written h).

Definition runOf (h : Hook) : ExecResult :=
  execResult env args (filesOf id (executing h)).

Definition executed (h : Hook) : Hook :=
  alterInstance id (setFiles (filesAfter (runOf h)))
    (reportProgress id (reported (runOf h)) (executing h)).

Definition reading (h : Hook) : Hook :=
  logCall (CallReadFile id outName) (executed h).

Definition deletingInput (h : Hook) : Hook :=
  logCall (CallDeleteFile id inName) (reading h).

Definition deletedInput (h : Hook) : Hook :=
  alterInstance id (fun e => setFiles (delete inName (files e)) e)
    (deletingInput h).

Definition deletingOutput (h : Hook) : Hook :=
  logCall (CallDeleteFile id outName) (deletedInput h).

Definition deletedOutput (h : Hook) : Hook :=
  alterInstance id (fun e => setFiles (delete outName (files e)) e)
    (deletingOutput h).

Definition finished (h : Hook) : Hook :=
  setHookState (finishProcessing (state (deletedOutput h))) (deletedOutput h).

(** The [catch] block, entered with [err] at hook [h]. *)
Definition caught (err : Thrown) (h : Hook) : Hook :=
  setHookState (failProcessing (messageOf fallback err) (state h)) h.

Definition resultBlob (data : list byte) : Blob :=
  {| blob_bytes := data; blob_type := getMimeType outExt |}.

(** How far a run gets before it throws. *)
Inductive Reached (h : Hook) : Hook -> Prop :=
  | ReachedWrite :
      fetchFileFault env file = None ->
      Reached h (writing h)
  | ReachedExec :
      Reached h (writing h) ->
      writeFileFault env inName = None ->
      Reached h (executed h)
  | ReachedRead :
      Reached h (executed h) ->
      execThrows (runOf h) = None ->
      Reached h (reading h)
  | ReachedDeleteInput :
      Reached h (reading h) ->
      readFileFault env outName = None ->
      is_Some (filesOf id (reading h) !! outName) ->
      Reached h (deletingInput h)
  | ReachedDeleteOutput :
      Reached h (deletingInput h) ->
      deleteFileFault env inName = None ->
      is_Some (filesOf id (deletingInput h) !! inName) ->
      Reached h (deletingOutput h).

(** The error thrown by the step made at a reached point, if that step
    throws. *)
Inductive Throws (h : Hook) : Hook -> Thrown -> Prop :=
  | ThrowsFetch err :
      fetchFileFault env file = Some err ->
      Throws h (entered h) err
  | ThrowsWrite err :
      Reached h (writing h) ->
      writeFileFault env inName = Some err ->
      Throws h (writing h) err
  | ThrowsExec err :
      Reached h (executed h) ->
      execThrows (runOf h) = Some err ->
      Throws h (executed h) err
  | ThrowsRead err :
      Reached h (reading h) ->
      readFileFault env outName = Some err ->
      Throws h (reading h) err
  | ThrowsReadMissing :
      Reached h (reading h) ->
      readFileFault env outName = None ->
      filesOf id (reading h) !! outName = None ->
      Throws h (reading h) (noSuchFile env)
  | ThrowsDeleteInput err :
      Reached h (deletingInput h) ->
      deleteFileFault env inName = Some err ->
      Throws h (deletingInput h) err
  | ThrowsDeleteInputMissing :
      Reached h (deletingInput h) ->
      deleteFileFault env inName = None ->
      filesOf id (deletingInput h) !! inName = None ->
      Throws h (deletingInput h) (noSuchFile env)
  | ThrowsDeleteOutput err :
      Reached h (deletingOutput h) ->
      deleteFileFault env outName = Some err ->
      Throws h (deletingOutput h) err
  | ThrowsDeleteOutputMissing :
      Reached h (deletingOutput h) ->
      deleteFileFault env outName = None ->
      filesOf id (deletingOutput h) !! outName = None ->
      Throws h (deletingOutput h) (noSuchFile env).

(** A run from [h] ends in hook [h'] with outcome [r]. *)
Inductive Run (h : Hook) : Hook -> Outcome Blob -> Prop :=
  | RunResolves data :
      Reached h (deletingOutput h) ->
      deleteFileFault env outName = None ->
      is_Some (filesOf id (deletingOutput h) !! outName) ->
      filesOf id (reading h) !! outName = Some data ->
      Run h (finished h) (Resolved (resultBlob data))
  | RunRejects at_ err :
      Throws h at_ err ->
      Run h (caught err at_) (Rejected err).

(** The engine calls of a run that gets to its end. *)
Definition stagedCalls : list EngineCall :=
  [ CallWriteFile id inName (file_bytes file);
    CallExec id args;
    CallReadFile id outName;
    CallDeleteFile id inName;
    CallDeleteFile id outName ].

(** The [try]/[catch] of a call, stage by stage. *)
Definition stagedRun (h : Hook) : Hook * Outcome Blob :=
  match fetchFileFault env file with
  | Some err => (caught err (entered h), Rejected err)
  | None =>
  match writeFileFault env inName with
  | Some err => (caught err (writing h), Rejected err)
  | None =>
  match execThrows (runOf h) with
  | Some err => (caught err (executed h), Rejected err)
  | None =>
  match readFileFault env outName with
  | Some err => (caught err (reading h), Rejected err)
  | None =>
  match filesOf id (reading h) !! outName with
  | None => (caught (noSuchFile env) (reading h), Rejected (noSuchFile env))
  | Some data =>
  match deleteFileFault env inName with
  | Some err => (caught err (deletingInput h), Rejected err)
  | None =>
  match filesOf id (deletingInput h) !! inName with
  | None =>
      (caught (noSuchFile env) (deletingInput h), Rejected (noSuchFile env))
  | Some _ =>
  match deleteFileFault env outName with
  | Some err => (caught err (deletingOutput h), Rejected err)
  | None =>
  match filesOf id (deletingOutput h) !! outName with
  | None =>
      (caught (noSuchFile env) (deletingOutput h), Rejected (noSuchFile env))
  | Some _ => (finished h, Resolved (resultBlob data))
  end end end end end end end end end.

End Stages.

(** ** The two run operations *)

Inductive Operation : Type :=
  | Sanitize (options : SanitizeOptions)
  | PrivacyGrain (options : PrivacyGrainOptions).

Definition run (env : Env) (file : File) (op : Operation) : M Blob :=
  match op with
  | Sanitize options => sanitize env file options
  | PrivacyGrain options => applyPrivacyGrain env file options
  end.

Definition outputFormatOf (op : Operation) : option string :=
  match op with
  | Sanitize options => so_outputFormat options
  | PrivacyGrain options => pg_outputFormat options
  end.

(** The argument sequence the operation builds for [file]. *)
Definition builtArgs (file : File) (op : Operation) : list string :=
  let inputFileName := inputNameOf (file_name file) in
  let outputFileName :=
    outputNameOf (outputExtOf (outputFormatOf op) (file_name file)) in
  match op with
  | Sanitize options =>
      sanitizeArgs (orDefault true (so_stripMetadata options))
                   (orDefault true (so_deterministicEncoding options))
                   inputFileName outputFileName
  | PrivacyGrain options =>
      grainArgs (orDefault true (pg_stripMetadata options))
                inputFileName outputFileName
  end.

Definition fallbackOf (op : Operation) : string :=
  match op with
  | Sanitize _ => "Sanitization failed"
  | PrivacyGrain _ => "Privacy grain failed"
  end.

(** ** Two [load] calls in flight together

    Both calls start before either is resumed; then the first and the second
    are resumed, each with the result of its own awaited steps. *)

Definition resumeLoad (suspended : option nat) (r : LoadResult) : M unit :=
  match suspended with
  | Some ffmpeg => loadFinish ffmpeg r
  | None => mret tt
  end.

Definition concurrentLoads (r1 r2 : LoadResult) (h : Hook)
    : Hook * (Outcome unit * Outcome unit) :=
  let '(h1, first) := loadStart h in
  let '(h2, second) := loadStart h1 in
  let '(h3, o1) := resumeLoad first r1 h2 in
  let '(h4, o2) := resumeLoad second r2 h3 in
  (h4, (o1, o2)).

Definition isEngineLoad (c : EngineCall) : bool :=
  match c with
  | CallLoad _ => true
  | _ => false
  end.

(** How many times [ffmpeg.load] has been called. *)
Definition engineLoads (h : Hook) : nat :=
  length (List.filter isEngineLoad (calls h)).

Definition loadsOf (r : LoadResult) : nat :=
  match r with
  | BlobURLRejects _ => 0
  | EngineLoadRejects _ | EngineLoadResolves => 1
  end.

Definition outcomeOf (r : LoadResult) : Outcome unit :=
  match r with
  | BlobURLRejects err | EngineLoadRejects err => Rejected err
  | EngineLoadResolves => Resolved tt
  end.

(** ** Concrete engines, hooks and files *)

Definition clip : File :=
  {| file_name := "clip.mp4"; file_bytes := [Byte.x00; Byte.x01; Byte.x02] |}.

Definition photo : File :=
  {| file_name := "photo.jpg"; file_bytes := [Byte.xff; Byte.xd8] |}.

Definition fsError : Thrown := NotAnError "ErrnoError: FS error".

(** An engine that transcodes: the run reports 25 and 100 percent and leaves
    one byte in the file named by the last argument. *)
Definition transcoder : Env :=
  {| fetchFileFault := fun _ => None;
     writeFileFault := fun _ => None;
     execResult := fun args fs =>
       {| reported := [25%Z; 100%Z];
          filesAfter := <[List.last args EmptyString := [Byte.x2a]]> fs;
          execThrows := None |};
     readFileFault := fun _ => None;
     deleteFileFault := fun _ => None;
     noSuchFile := fsError |}.

(** An engine whose run reports 40 percent and then rejects. *)
Definition rejectingExec : Env :=
  {| fetchFileFault := fun _ => None;
     writeFileFault := fun _ => None;
     execResult := fun args fs =>
       {| reported := [40%Z];
          filesAfter := fs;
          execThrows := Some (ErrorObject "Invalid data found when processing input") |};
     readFileFault := fun _ => None;
     deleteFileFault := fun _ => None;
     noSuchFile := fsError |}.

(** The transcoding engine, except that no file can be deleted. *)
Definition stuckDelete : Env :=
  {| fetchFileFault := fun _ => None;
     writeFileFault := fun _ => None;
     execResult := execResult transcoder;
     readFileFault := fun _ => None;
     deleteFileFault := fun _ => Some (ErrorObject "unlink failed");
     noSuchFile := fsError |}.

Definition loadedEngine (fs : gmap string (list byte)) : FFmpeg :=
  {| loaded := true; progressListener := true; files := fs |}.

(** The hook after one successful [load]. *)
Definition readyHook : Hook := fst (load EngineLoadResolves initialHook).

(** The hook while a run on [movie.mp4] is suspended in [exec], at 40
    percent. *)
Definition busyHook : Hook :=
  {| instances := [loadedEngine {[ "input.mp4" := [Byte.x07] ]}];
     ffmpegRef := Some 0;
     state := {| isLoaded := true; isProcessing := true; progress := 40;
                 error := None |};
     updates := []; calls := [] |}.

(** The hook after a run has failed. *)
Definition faultedHook : Hook :=
  fst (sanitize rejectingExec clip noSanitizeOptions readyHook).

(** Scenario A: strip the metadata, do not force bit-exact encoding. *)
Definition scenarioA : SanitizeOptions :=
  {| so_stripMetadata := Some true; so_deterministicEncoding := Some false;
     so_outputFormat := None |}.

(** ** Vocabulary of the further properties *)

(** What [exec] does in a run of [op] on [file] that starts with the files
    [fs] in the engine: the run is made on [fs] with the input staged. *)
Definition ranOf (env : Env) (file : File) (op : Operation)
    (fs : gmap string (list byte)) : ExecResult :=
  execResult env (builtArgs file op) (<[inName file := file_bytes file]> fs).

(** The state shown at entry of a call made in state [s], with the percent
    replaced by [percent]. *)
Definition shownAt (s : LuminaEngineState) (percent : Z) : LuminaEngineState :=
  withProgress percent (enterProcessing s).

(** [at_] is a hook of a call made at [h], past its entry, where the state
    updates so far are the entry and the percents [shown]. *)
Definition traced (h at_ : Hook) (shown : list Z) : Prop :=
  updates at_ = updates h ++ map (shownAt (state h)) (0%Z :: shown)
  /\ state at_ = shownAt (state h) (List.last shown 0%Z).

(** The last state update of a call that ends with outcome [r]. *)
Definition lastUpdate (fallback : string) (r : Outcome Blob)
    : LuminaEngineState -> LuminaEngineState :=
  match r with
  | Resolved _ => finishProcessing
  | Rejected err => failProcessing (messageOf fallback err)
  end.

(** [h'] has the engine objects of [h], the same current one, and differs
    from [h] at most in the files of the object [id]. *)
Definition sameEngines (id : nat) (h h' : Hook) : Prop :=
  ffmpegRef h' = ffmpegRef h
  /\ length (instances h') = length (instances h)
  /\ (forall j, j <> id -> instances h' !! j = instances h !! j)
  /\ (forall e, instances h !! id = Some e ->
        exists fs, instances h' !! id = Some (setFiles fs e)).

(** The state says loaded exactly when the current engine is loaded. *)
Definition loadedAsShown (h : Hook) : Prop :=
  isLoaded (state h) = true <-> is_Some (currentLoaded h).

(** Calls of the hook made one after the other, each one run to its end
    before the next is made. *)
Inductive HookCall : Type :=
  | DoLoad (r : LoadResult)
  | DoRun (env : Env) (file : File) (op : Operation).

Definition perform (c : HookCall) (h : Hook) : Hook :=
  match c with
  | DoLoad r => fst (load r h)
  | DoRun env file op => fst (run env file op h)
  end.

Definition performAll (cs : list HookCall) (h : Hook) : Hook :=
  fold_left (fun h c => perform c h) cs h.

(** A [load] result that is a failure. *)
Definition loadFails (r : LoadResult) (err : Thrown) : Prop :=
  r = BlobURLRejects err \/ r = EngineLoadRejects err.

(** An engine like [transcoder] whose run resolves without leaving an
    output file. *)
Definition silentExec : Env :=
  {| fetchFileFault := fun _ => None;
     writeFileFault := fun _ => None;
     execResult := fun args fs =>
       {| reported := []; filesAfter := fs; execThrows := None |};
     readFileFault := fun _ => None;
     deleteFileFault := fun _ => None;
     noSuchFile := fsError |}.


(** Every live object URL of the page has been created. *)
Definition pageOk (p : Page) : Prop :=
  Forall (fun url => url < created p) (live p).

(** The three errors of [processImage]. *)
Definition processImageErrors : list Thrown :=
  [ ErrorObject "Failed to load image";
    ErrorObject "Could not get canvas context";
    ErrorObject "Failed to create blob" ].

(** A browser that decodes every image and encodes one byte. *)
Definition plainBrowser : Browser :=
  {| decodes := fun _ => true;
     context2d := true;
     encodes := fun _ _ _ => Some [Byte.x2a] |}.

(** A browser that decodes no image. *)
Definition blindBrowser : Browser :=
  {| decodes := fun _ => false;
     context2d := true;
     encodes := fun _ _ _ => Some [Byte.x2a] |}.

Definition photoUpload : Upload :=
  {| up_file := photo; up_type := "image/jpeg" |}.

Definition clipUpload : Upload :=
  {| up_file := clip; up_type := "video/mp4" |}.

Definition warm : Adjustments :=
  {| brightness := 10; contrast := 0; saturation := 25 |}.

(** The facts kept by every reaction to a user event. *)
Definition appOk (s : AppState) : Prop :=
  (file s = None -> adjustments s = defaultAdjustments)
  /\ (isDragging s = true -> file s = None).

(** Only drops have selected the file: no [Browse] event so far. *)
Definition droppedOnly (es : list UserEvent) : Prop :=
  forallb (fun e => negb (isBrowse e)) es = true.
(** * Properties *)

(** ** The helpers on concrete names *)

Example getExtension_jpg : getExtension "photo.jpg" = ".jpg".
Proof. reflexivity. Qed.

Example getExtension_last_dot : getExtension "a.b.c" = ".c".
Proof. reflexivity. Qed.

Example getExtension_trailing_dot : getExtension "a.b." = ".mp4".
Proof. reflexivity. Qed.

Example getExtension_none : getExtension "README" = ".mp4".
Proof. reflexivity. Qed.

Example getMimeType_upper : getMimeType ".JPG" = MimeString "image/jpeg".
Proof. reflexivity. Qed.

Example getMimeType_unknown :
  getMimeType ".xyz" = MimeString "application/octet-stream".
Proof. reflexivity. Qed.

Example getMimeType_inherited : getMimeType "Constructor" = ObjectConstructor.
Proof. reflexivity. Qed.

Example outputExtOf_empty_override :
  outputExtOf (Some EmptyString) "clip.mov" = ".mov".
Proof. reflexivity. Qed.

(** ** Argument sequences *)









(** ** Every call on a loaded engine is a staged run *)

Section RunSound.

Variable env : Env.

Ltac run_unfold :=
  unfold stagedRun, finished, caught, resultBlob, deletedOutput, deletingOutput,
    deletedInput, deletingInput, reading, executed, runOf, executing, written,
    writing, entered, inName, outName, outExt;
  unfold mbind, M_bind, mret, M_ret, tryCatch, setState, throw, fetchFile,
    writeFile, exec, readFile, deleteFile;
  cbn beta iota zeta.

Ltac run_cases :=
  repeat match goal with
         | |- context [fetchFileFault ?e ?f] =>
             destruct (fetchFileFault e f); cbn beta iota zeta
         | |- context [writeFileFault ?e ?n] =>
             destruct (writeFileFault e n); cbn beta iota zeta
         | |- context [execThrows ?r] =>
             destruct (execThrows r); cbn beta iota zeta
         | |- context [readFileFault ?e ?n] =>
             destruct (readFileFault e n); cbn beta iota zeta
         | |- context [deleteFileFault ?e ?n] =>
             destruct (deleteFileFault e n); cbn beta iota zeta
         | |- context [match ?m !! ?k with Some _ => _ | None => _ end] =>
             lazymatch type of k with
             | string => destruct (m !! k); cbn beta iota zeta
             end
         end.

Lemma sanitize_stagedRun file options h id :
  currentLoaded h = Some id ->
  sanitize env file options h =
    stagedRun env id file (so_outputFormat options)
      (sanitizeArgs (orDefault true (so_stripMetadata options))
                    (orDefault true (so_deterministicEncoding options))
                    (inputNameOf (file_name file))
                    (outputNameOf (outputExtOf (so_outputFormat options)
                                               (file_name file))))
      "Sanitization failed" h.
Proof.
  intros Hc. unfold sanitize. rewrite Hc. run_unfold. run_cases; reflexivity.
Qed.

Lemma applyPrivacyGrain_stagedRun file options h id :
  currentLoaded h = Some id ->
  applyPrivacyGrain env file options h =
    stagedRun env id file (pg_outputFormat options)
      (grainArgs (orDefault true (pg_stripMetadata options))
                 (inputNameOf (file_name file))
                 (outputNameOf (outputExtOf (pg_outputFormat options)
                                            (file_name file))))
      "Privacy grain failed" h.
Proof.
  intros Hc. unfold applyPrivacyGrain. rewrite Hc. run_unfold.
  run_cases; reflexivity.
Qed.

Lemma stagedRun_Run id file outputFormat args fallback h :
  Run env id file outputFormat args fallback h
    (fst (stagedRun env id file outputFormat args fallback h))
    (snd (stagedRun env id file outputFormat args fallback h)).
Proof.
  pose (rejects := RunRejects env id file outputFormat args fallback h).
  unfold stagedRun.
  destruct (fetchFileFault _ _) as [err|] eqn:Hfetch.
  { exact (rejects _ err ltac:(now constructor)). }
  assert (Reached env id file outputFormat args h (writing id file h)) as R1
    by now constructor.
  destruct (writeFileFault _ _) as [err|] eqn:Hwrite.
  { exact (rejects _ err ltac:(now constructor)). }
  assert (Reached env id file outputFormat args h
            (executed env id file args h)) as R2 by now constructor.
  destruct (execThrows _) as [err|] eqn:Hexec.
  { exact (rejects _ err ltac:(now constructor)). }
  assert (Reached env id file outputFormat args h
            (reading env id file outputFormat args h)) as R3 by now constructor.
  destruct (readFileFault _ _) as [err|] eqn:Hread.
  { exact (rejects _ err ltac:(now constructor)). }
  destruct (filesOf id (reading _ _ _ _ _ _) !! _) as [data|] eqn:Hout.
  2: { exact (rejects _ _ ltac:(now constructor)). }
  assert (Reached env id file outputFormat args h
            (deletingInput env id file outputFormat args h)) as R4
    by (constructor; eauto).
  destruct (deleteFileFault _ (inName _)) as [err|] eqn:Hdel1.
  { exact (rejects _ err ltac:(now constructor)). }
  destruct (filesOf id (deletingInput _ _ _ _ _ _) !! _) as [kept|] eqn:Hin.
  2: { exact (rejects _ _ ltac:(now constructor)). }
  assert (Reached env id file outputFormat args h
            (deletingOutput env id file outputFormat args h)) as R5
    by (constructor; eauto).
  destruct (deleteFileFault _ (outName _ _)) as [err|] eqn:Hdel2.
  { exact (rejects _ err ltac:(now constructor)). }
  destruct (filesOf id (deletingOutput _ _ _ _ _ _) !! _) as [out|] eqn:Hout2.
  2: { exact (rejects _ _ ltac:(now constructor)). }
  cbn [fst snd]. econstructor; eauto.
Qed.

End RunSound.

(** ** What the stages do to the hook *)

Lemma currentLoaded_instance h id :
  currentLoaded h = Some id ->
  ffmpegRef h = Some id /\
  exists e, instances h !! id = Some e /\ loaded e = true.
Proof.
  unfold currentLoaded. intros Hc.
  destruct (ffmpegRef h) as [i|]; [| discriminate].
  destruct (instances h !! i) as [e|] eqn:He; [| discriminate].
  destruct (loaded e) eqn:Hl; [| discriminate].
  injection Hc as ->. eauto.
Qed.

Lemma currentLoaded_withProcessing b h :
  currentLoaded (withProcessing b h) = currentLoaded h.
Proof. reflexivity. Qed.

Lemma withProgress_same s : withProgress (progress s) s = s.
Proof. now destruct s. Qed.

Lemma last_nonempty_default (q : Z) (l : list Z) (d d' : Z) :
  List.last (q :: l) d = List.last (q :: l) d'.
Proof.
  revert q. induction l as [| x l IH]; intros q; [reflexivity |].
  change (List.last (x :: l) d = List.last (x :: l) d'). apply IH.
Qed.

Section Progress.

Variable id : nat.

Lemma reports_instances percents h :
  instances (fold_left (fun h p => onProgress p h) percents h) = instances h.
Proof.
  revert h. induction percents as [| p l IH]; intros h; [reflexivity |].
  cbn [fold_left]. now rewrite IH.
Qed.

Lemma reports_calls percents h :
  calls (fold_left (fun h p => onProgress p h) percents h) = calls h.
Proof.
  revert h. induction percents as [| p l IH]; intros h; [reflexivity |].
  cbn [fold_left]. now rewrite IH.
Qed.

Lemma reports_ref percents h :
  ffmpegRef (fold_left (fun h p => onProgress p h) percents h) = ffmpegRef h.
Proof.
  revert h. induction percents as [| p l IH]; intros h; [reflexivity |].
  cbn [fold_left]. now rewrite IH.
Qed.

Lemma reports_state percents h :
  state (fold_left (fun h p => onProgress p h) percents h) =
    withProgress (List.last percents (progress (state h))) (state h).
Proof.
  revert h. induction percents as [| p l IH]; intros h.
  - cbn. symmetry. apply withProgress_same.
  - cbn [fold_left]. rewrite IH. cbn [onProgress setHookState state progress].
    destruct l as [| q l']; [reflexivity |].
    change (List.last (p :: q :: l') (progress (state h)))
      with (List.last (q :: l') (progress (state h))).
    now rewrite (last_nonempty_default q l' p (progress (state h))).
Qed.

Lemma reports_updates percents h :
  updates (fold_left (fun h p => onProgress p h) percents h) =
    updates h ++ map (fun p => withProgress p (state h)) percents.
Proof.
  revert h. induction percents as [| p l IH]; intros h.
  - cbn. now rewrite app_nil_r.
  - cbn [fold_left]. rewrite IH. cbn. now rewrite <- app_assoc.
Qed.

Lemma reportProgress_instances percents h :
  instances (reportProgress id percents h) = instances h.
Proof. unfold reportProgress. destruct (listening id h); [apply reports_instances | reflexivity]. Qed.

Lemma reportProgress_calls percents h :
  calls (reportProgress id percents h) = calls h.
Proof. unfold reportProgress. destruct (listening id h); [apply reports_calls | reflexivity]. Qed.

Lemma reportProgress_state percents h :
  state (reportProgress id percents h) =
    withProgress (lastReported id percents h) (state h).
Proof.
  unfold reportProgress, lastReported. destruct (listening id h).
  - apply reports_state.
  - symmetry. apply withProgress_same.
Qed.

Lemma reportProgress_updates percents h :
  exists shown,
    updates (reportProgress id percents h) =
      updates h ++ map (fun p => withProgress p (state h)) shown.
Proof.
  unfold reportProgress. destruct (listening id h).
  - exists percents. apply reports_updates.
  - exists []. cbn. now rewrite app_nil_r.
Qed.

Lemma synced_reportProgress percents h :
  synced h -> synced (reportProgress id percents h).
Proof.
  intros [earlier He]. unfold reportProgress.
  destruct (listening id h); [| now exists earlier].
  unfold synced. rewrite reports_updates, reports_state.
  destruct percents as [| p l] using rev_ind.
  - exists earlier. cbn. now rewrite app_nil_r, withProgress_same.
  - exists (updates h ++ map (fun p => withProgress p (state h)) l).
    rewrite map_app, last_last, app_assoc. reflexivity.
Qed.

End Progress.

Lemma synced_setHookState s h : synced (setHookState s h).
Proof. now exists (updates h). Qed.

Lemma synced_logCall c h : synced h -> synced (logCall c h).
Proof. intros [earlier He]. now exists earlier. Qed.

Lemma synced_alterInstance id f h : synced h -> synced (alterInstance id f h).
Proof. intros [earlier He]. now exists earlier. Qed.

Create HintDb stages.

#[local] Hint Resolve synced_setHookState synced_logCall synced_alterInstance
  synced_reportProgress : stages.

Lemma instance_alter id f h e :
  instances h !! id = Some e ->
  instances (alterInstance id f h) !! id = Some (f e).
Proof.
  intros He. cbn [alterInstance setInstances instances].
  now rewrite list_lookup_alter_eq, He.
Qed.

Lemma filesOf_instance id h e :
  instances h !! id = Some e -> filesOf id h = files e.
Proof. unfold filesOf. now intros ->. Qed.

Section StageFacts.

Variable env : Env.
Variable id : nat.
Variable file : File.
Variable outputFormat : option string.
Variable args : list string.
Variable h : Hook.
Variable e : FFmpeg.
Hypothesis He : instances h !! id = Some e.

Let inputFileName := inName file.
Let outputFileName := outName file outputFormat.
Let ran := runOf env id file args h.

Lemma instance_written :
  instances (written id file h) !! id =
    Some (setFiles (<[inputFileName := file_bytes file]> (files e)) e).
Proof.
  unfold written.
  exact (instance_alter id
           (fun e => setFiles (<[inName file := file_bytes file]> (files e)) e)
           _ e He).
Qed.

Lemma runOf_files :
  ran = execResult env args (<[inputFileName := file_bytes file]> (files e)).
Proof.
  unfold ran, runOf. f_equal.
  change (filesOf id (executing id file args h)) with (filesOf id (written id file h)).
  now rewrite (filesOf_instance _ _ _ instance_written).
Qed.

Lemma instance_executed :
  instances (executed env id file args h) !! id =
    Some (setFiles (filesAfter ran) e).
Proof.
  unfold executed.
  rewrite (instance_alter id (setFiles (filesAfter ran)) _
             (setFiles (<[inputFileName := file_bytes file]> (files e)) e));
    [reflexivity |].
  rewrite reportProgress_instances. apply instance_written.
Qed.

Lemma files_reading :
  filesOf id (reading env id file outputFormat args h) = filesAfter ran.
Proof.
  change (filesOf id (reading env id file outputFormat args h))
    with (filesOf id (executed env id file args h)).
  now rewrite (filesOf_instance _ _ _ instance_executed).
Qed.

Lemma files_deletingInput :
  filesOf id (deletingInput env id file outputFormat args h) = filesAfter ran.
Proof. exact files_reading. Qed.

Lemma instance_deletedInput :
  instances (deletedInput env id file outputFormat args h) !! id =
    Some (setFiles (delete inputFileName (filesAfter ran)) e).
Proof.
  unfold deletedInput.
  rewrite (instance_alter id
             (fun e => setFiles (delete (inName file) (files e)) e) _
             (setFiles (filesAfter ran) e)); [reflexivity |].
  exact instance_executed.
Qed.

Lemma files_deletingOutput :
  filesOf id (deletingOutput env id file outputFormat args h) =
    delete inputFileName (filesAfter ran).
Proof.
  change (filesOf id (deletingOutput env id file outputFormat args h))
    with (filesOf id (deletedInput env id file outputFormat args h)).
  now rewrite (filesOf_instance _ _ _ instance_deletedInput).
Qed.

Lemma instance_deletedOutput :
  instances (deletedOutput env id file outputFormat args h) !! id =
    Some (setFiles (delete outputFileName (delete inputFileName (filesAfter ran))) e).
Proof.
  unfold deletedOutput.
  rewrite (instance_alter id
             (fun e => setFiles (delete (outName file outputFormat) (files e)) e) _
             (setFiles (delete inputFileName (filesAfter ran)) e));
    [reflexivity |].
  exact instance_deletedInput.
Qed.

Lemma files_finished :
  filesOf id (finished env id file outputFormat args h) =
    delete outputFileName (delete inputFileName (filesAfter ran)).
Proof.
  change (filesOf id (finished env id file outputFormat args h))
    with (filesOf id (deletedOutput env id file outputFormat args h)).
  now rewrite (filesOf_instance _ _ _ instance_deletedOutput).
Qed.

End StageFacts.

(** ** What the stages do to the status *)

Lemma started_entered h : started h (entered h).
Proof.
  repeat split.
  - apply synced_setHookState.
  - now exists [].
  - exists 0%Z. reflexivity.
Qed.

Lemma started_logCall h at_ c : started h at_ -> started h (logCall c at_).
Proof. intros (Hs & Hu & Hp). repeat split; auto with stages. Qed.

Lemma started_alterInstance h at_ id f :
  started h at_ -> started h (alterInstance id f at_).
Proof. intros (Hs & Hu & Hp). repeat split; auto with stages. Qed.

Lemma started_reportProgress h at_ id percents :
  started h at_ -> started h (reportProgress id percents at_).
Proof.
  intros (Hs & (rest & Hu) & (p & Hp)). repeat split; auto with stages.
  - destruct (reportProgress_updates id percents at_) as (shown & ->).
    rewrite Hu, <- app_assoc. cbn. eauto.
  - rewrite reportProgress_state, Hp. eexists. reflexivity.
Qed.

#[local] Hint Resolve started_entered started_logCall started_alterInstance
  started_reportProgress : stages.

Section Status.

Variable env : Env.
Variable id : nat.
Variable file : File.
Variable outputFormat : option string.
Variable args : list string.
Variable fallback : string.
Variable h : Hook.

Lemma started_executed : started h (executed env id file args h).
Proof. unfold executed, executing, written, writing. auto 10 with stages. Qed.

Lemma started_deletingOutput :
  started h (deletingOutput env id file outputFormat args h).
Proof.
  unfold deletingOutput, deletedInput, deletingInput, reading.
  pose proof started_executed. auto 10 with stages.
Qed.

Lemma Throws_started at_ err :
  Throws env id file outputFormat args h at_ err -> started h at_.
Proof.
  pose proof started_executed.
  destruct 1;
    unfold deletingOutput, deletedInput, deletingInput, reading, writing;
    auto 10 with stages.
Qed.

Lemma Run_updates_and_state h' r :
  Run env id file outputFormat args fallback h h' r ->
  (exists rest, updates h' = updates h ++ enterProcessing (state h) :: rest) /\
  match r with
  | Resolved _ =>
      state h' =
        {| isLoaded := isLoaded (state h); isProcessing := false;
           progress := 100; error := None |}
  | Rejected err =>
      exists earlier s,
        updates h' = earlier ++ [s; state h'] /\
        state h' = failProcessing (messageOf fallback err) s /\
        s = withProgress (progress s) (enterProcessing (state h))
  end.
Proof.
  destruct 1 as [data _ _ _ _ | at_ err Hthrows].
  - destruct started_deletingOutput as (_ & (rest & Hu) & (p & Hp)). split.
    + exists (rest ++ [state (finished env id file outputFormat args h)]).
      cbn. cbn in Hu. rewrite Hu, <- app_assoc. reflexivity.
    + cbn. cbn in Hp. now rewrite Hp.
  - destruct (Throws_started _ _ Hthrows) as ((earlier & Hs) & (rest & Hu) & (p & Hp)).
    split.
    + exists (rest ++ [state (caught fallback err at_)]).
      cbn. rewrite Hu, <- app_assoc. reflexivity.
    + exists earlier, (state at_). repeat split.
      * cbn. rewrite Hs at 1. now rewrite <- app_assoc.
      * now rewrite Hp.
Qed.

End Status.

(** ** The engine calls of a run *)

Section Calls.

Variable env : Env.
Variable id : nat.
Variable file : File.
Variable outputFormat : option string.
Variable args : list string.
Variable fallback : string.
Variable h : Hook.

Let made := stagedCalls id file outputFormat args.

Lemma calls_executed :
  calls (executed env id file args h) = calls h ++ take 2 made.
Proof.
  unfold executed. cbn [calls alterInstance setInstances].
  rewrite reportProgress_calls. cbn. now rewrite <- app_assoc.
Qed.

Lemma calls_reading :
  calls (reading env id file outputFormat args h) = calls h ++ take 3 made.
Proof.
  unfold reading. cbn [calls logCall]. rewrite calls_executed.
  now rewrite <- app_assoc.
Qed.

Lemma calls_deletingInput :
  calls (deletingInput env id file outputFormat args h) = calls h ++ take 4 made.
Proof.
  unfold deletingInput. cbn [calls logCall]. rewrite calls_reading.
  now rewrite <- app_assoc.
Qed.

Lemma calls_deletingOutput :
  calls (deletingOutput env id file outputFormat args h) = calls h ++ made.
Proof.
  unfold deletingOutput, deletedInput.
  cbn [calls logCall alterInstance setInstances].
  rewrite calls_deletingInput. now rewrite <- app_assoc.
Qed.

Lemma Throws_calls at_ err :
  Throws env id file outputFormat args h at_ err ->
  exists n, calls at_ = calls h ++ take n made.
Proof.
  destruct 1.
  - exists 0. cbn. now rewrite app_nil_r.
  - now exists 1.
  - exists 2. apply calls_executed.
  - exists 3. apply calls_reading.
  - exists 3. apply calls_reading.
  - exists 4. apply calls_deletingInput.
  - exists 4. apply calls_deletingInput.
  - exists 5. apply calls_deletingOutput.
  - exists 5. apply calls_deletingOutput.
Qed.

Lemma Run_calls h' r :
  Run env id file outputFormat args fallback h h' r ->
  exists n, calls h' = calls h ++ take n made /\
            (forall b, r = Resolved b -> n = 5).
Proof.
  destruct 1 as [data _ _ _ _ | at_ err Hthrows].
  - exists 5. split; [| reflexivity]. apply calls_deletingOutput.
  - destruct (Throws_calls _ _ Hthrows) as (n & Hn).
    exists n. split; [exact Hn | discriminate].
Qed.

End Calls.

(** ** The two operations as staged runs *)

Lemma run_stagedRun env file op h id :
  currentLoaded h = Some id ->
  run env file op h =
    stagedRun env id file (outputFormatOf op) (builtArgs file op)
              (fallbackOf op) h.
Proof.
  destruct op as [options | options]; intros Hc.
  - now apply sanitize_stagedRun.
  - now apply applyPrivacyGrain_stagedRun.
Qed.

Lemma run_Run env file op h id :
  currentLoaded h = Some id ->
  Run env id file (outputFormatOf op) (builtArgs file op) (fallbackOf op) h
      (fst (run env file op h)) (snd (run env file op h)).
Proof.
  intros Hc. rewrite (run_stagedRun _ _ _ _ _ Hc). apply stagedRun_Run.
Qed.

Lemma Run_blob_type env id file outputFormat args fallback h h' b :
  Run env id file outputFormat args fallback h h' (Resolved b) ->
  blob_type b = getMimeType (outputExtOf outputFormat (file_name file)).
Proof. inversion 1; subst. reflexivity. Qed.

Lemma run_not_loaded env file op h :
  currentLoaded h = None -> run env file op h = (h, Rejected notLoadedError).
Proof.
  intros Hc. destruct op; cbn [run];
    [unfold sanitize | unfold applyPrivacyGrain]; now rewrite Hc.
Qed.

Lemma Run_resolved_hook env id file outputFormat args fallback h h' b :
  Run env id file outputFormat args fallback h h' (Resolved b) ->
  h' = finished env id file outputFormat args h.
Proof. inversion 1; subst. reflexivity. Qed.

Lemma Run_rejected_hook env id file outputFormat args fallback h h' err :
  Run env id file outputFormat args fallback h h' (Rejected err) ->
  exists at_, Throws env id file outputFormat args h at_ err /\
              h' = caught fallback err at_.
Proof. inversion 1; subst. eauto. Qed.

(** A staged run depends on the hook it starts from only through the hook
    after entry, and entry overwrites [isProcessing]. *)
Lemma stagedRun_withProcessing env id file outputFormat args fallback b h :
  stagedRun env id file outputFormat args fallback (withProcessing b h) =
  stagedRun env id file outputFormat args fallback h.
Proof.
  unfold stagedRun, finished, deletedOutput, deletingOutput, deletedInput,
    deletingInput, reading, executed, runOf, executing, written, writing.
  change (entered (withProcessing b h)) with (entered h).
  reflexivity.
Qed.

(** * The claims *)

(** ** Argument sequences of [sanitize] and [applyPrivacyGrain] *)





(** ** The mode wrappers and the defaults *)

(** C6. [removePII] with output format [f] and [sanitizeForCI] with [f] are
    the same call of [sanitize], with both switches on and output format
    [f]: same hook afterwards, same outcome, same argument sequence. *)
Theorem removePII_is_sanitizeForCI (env : Env) (file : File) (f : option string) :
  let bundle :=
    {| so_stripMetadata := Some true; so_deterministicEncoding := Some true;
       so_outputFormat := f |} in
  removePII env file {| pii_outputFormat := f |} = sanitize env file bundle
  /\ sanitizeForCI env file f = sanitize env file bundle
  /\ (forall h,
        removePII env file {| pii_outputFormat := f |} h =
        sanitizeForCI env file f h)
  /\ builtArgs file (Sanitize bundle) =
       sanitizeArgs true true (inputNameOf (file_name file))
         (outputNameOf (outputExtOf f (file_name file))).
Proof. repeat split. Qed.


(** ** Calls before the engine is loaded *)

(** C7. With no loaded engine behind [ffmpegRef], a run rejects with the
    not-loaded error and leaves the hook as it was: no engine call, no file
    written, no state update. *)
Theorem run_before_load (env : Env) (file : File) (op : Operation) (h : Hook) :
  currentLoaded h = None ->
  run env file op h = (h, Rejected notLoadedError)
  /\ calls (fst (run env file op h)) = calls h
  /\ instances (fst (run env file op h)) = instances h
  /\ state (fst (run env file op h)) = state h
  /\ updates (fst (run env file op h)) = updates h.
Proof.
  intros Hc. rewrite (run_not_loaded env file op h Hc). repeat split.
Qed.

(** C7 on the initial hook, where [load] has never been called. *)
Lemma run_before_load_witness :
  currentLoaded initialHook = None
  /\ run transcoder clip (Sanitize noSanitizeOptions) initialHook =
       (initialHook, Rejected notLoadedError)
  /\ run transcoder clip (PrivacyGrain noPrivacyGrainOptions) initialHook =
       (initialHook, Rejected notLoadedError).
Proof.
  split; [reflexivity | split].
  - exact (proj1 (run_before_load transcoder clip (Sanitize noSanitizeOptions)
                    initialHook eq_refl)).
  - exact (proj1 (run_before_load transcoder clip
                    (PrivacyGrain noPrivacyGrainOptions) initialHook eq_refl)).
Defined.

(** ** Staged blobs after a run *)

(** A run that resolves has deleted both staged blobs. *)
Lemma resolved_run_cleans env file op h id b :
  currentLoaded h = Some id ->
  snd (run env file op h) = Resolved b ->
  filesOf id (fst (run env file op h)) !! inName file = None
  /\ filesOf id (fst (run env file op h)) !! outName file (outputFormatOf op) = None.
Proof.
  intros Hc Hb. pose proof (run_Run env file op h id Hc) as HR.
  rewrite Hb in HR.
  destruct (currentLoaded_instance h id Hc) as (_ & e & He & _).
  rewrite (Run_resolved_hook _ _ _ _ _ _ _ _ _ HR).
  rewrite (files_finished env id file (outputFormatOf op) _ h e He).
  split.
  - rewrite lookup_delete. case_decide; [reflexivity |]. apply lookup_delete_eq.
  - apply lookup_delete_eq.
Qed.

(** A run whose [exec] rejects leaves the file system as [exec] left it:
    nothing is deleted. *)
Lemma rejected_exec_no_cleanup env file op h id err :
  let ran :=
    execResult env (builtArgs file op)
      (<[inName file := file_bytes file]> (filesOf id h)) in
  currentLoaded h = Some id ->
  fetchFileFault env file = None ->
  writeFileFault env (inName file) = None ->
  execThrows ran = Some err ->
  snd (run env file op h) = Rejected err
  /\ filesOf id (fst (run env file op h)) = filesAfter ran.
Proof.
  intros ran Hc Hfetch Hwrite Hexec.
  destruct (currentLoaded_instance h id Hc) as (_ & e & He & _).
  assert (Hran : runOf env id file (builtArgs file op) h = ran).
  { rewrite (runOf_files env id file _ h e He).
    unfold ran. now rewrite (filesOf_instance id h e He). }
  rewrite (run_stagedRun env file op h id Hc). unfold stagedRun.
  rewrite Hfetch, Hwrite, Hran, Hexec. cbn [fst snd]. split; [reflexivity |].
  change (filesOf id (caught (fallbackOf op) err
                        (executed env id file (builtArgs file op) h)))
    with (filesOf id (executed env id file (builtArgs file op) h)).
  rewrite (filesOf_instance _ _ _
             (instance_executed env id file (builtArgs file op) h e He)).
  cbn [files setFiles]. now rewrite Hran.
Qed.

(** C1, at a run whose [exec] rejects: the call rejects, and the staged input
    blob is still in the engine's file system afterwards; the only engine
    calls made are the write and the [exec], no delete.  The same holds for
    [applyPrivacyGrain]. *)
Theorem rejected_exec_keeps_input_staged :
  snd (run rejectingExec clip (Sanitize noSanitizeOptions) readyHook) =
    Rejected (ErrorObject "Invalid data found when processing input")
  /\ filesOf 0 (fst (run rejectingExec clip (Sanitize noSanitizeOptions) readyHook))
       !! "input.mp4" = Some (file_bytes clip)
  /\ calls (fst (run rejectingExec clip (Sanitize noSanitizeOptions) readyHook)) =
       calls readyHook
         ++ [CallWriteFile 0 "input.mp4" (file_bytes clip);
             CallExec 0 (builtArgs clip (Sanitize noSanitizeOptions))]
  /\ snd (run rejectingExec clip (PrivacyGrain noPrivacyGrainOptions) readyHook) =
       Rejected (ErrorObject "Invalid data found when processing input")
  /\ filesOf 0 (fst (run rejectingExec clip (PrivacyGrain noPrivacyGrainOptions)
                         readyHook))
       !! "input.mp4" = Some (file_bytes clip).
Proof. repeat split; vm_compute; reflexivity. Qed.

(** ** A call made while another is in flight *)

(** C2 fails on [busyHook]: with [isProcessing] true the call is not
    rejected, it resolves with a blob; its entry shows 0 percent in place of
    40; and it writes its own bytes over the staged [input.mp4]. *)
Lemma busy_call_is_not_rejected :
  isProcessing (state busyHook) = true
  /\ progress (state busyHook) = 40%Z
  /\ filesOf 0 busyHook !! "input.mp4" = Some [Byte.x07]
  /\ snd (run transcoder clip (Sanitize noSanitizeOptions) busyHook) =
       Resolved {| blob_bytes := [Byte.x2a]; blob_type := MimeString "video/mp4" |}
  /\ progress <$> (updates (fst (run transcoder clip (Sanitize noSanitizeOptions)
                                      busyHook)) !! 0) = Some 0%Z
  /\ calls (fst (run transcoder clip (Sanitize noSanitizeOptions) busyHook)) !! 0 =
       Some (CallWriteFile 0 "input.mp4" (file_bytes clip)).
Proof. repeat split; vm_compute; reflexivity. Qed.

(** C2, amended.  A run never reads [isProcessing]: on a loaded engine the
    call made with the flag set to [b] is the call made without that change.
    It records the entry update (processing, 0 percent, no error) and makes
    its engine calls under the names [input<ext>] and [output<ext>]. *)
Theorem run_ignores_isProcessing (env : Env) (file : File) (op : Operation)
    (h : Hook) (id : nat) (b : bool) :
  currentLoaded h = Some id ->
  run env file op (withProcessing b h) = run env file op h
  /\ (exists rest,
        updates (fst (run env file op h)) =
          updates h ++ enterProcessing (state h) :: rest)
  /\ (exists n,
        calls (fst (run env file op h)) =
          calls h ++ take n (stagedCalls id file (outputFormatOf op)
                                         (builtArgs file op))).
Proof.
  intros Hc. pose proof (run_Run env file op h id Hc) as HR.
  split; [| split].
  - rewrite (run_stagedRun env file op h id Hc).
    rewrite (run_stagedRun env file op (withProcessing b h) id)
      by now rewrite currentLoaded_withProcessing.
    apply stagedRun_withProcessing.
  - now destruct (Run_updates_and_state _ _ _ _ _ _ _ _ _ HR) as [Hentry _].
  - destruct (Run_calls _ _ _ _ _ _ _ _ _ HR) as (n & Hn & _). now exists n.
Qed.

(** The amended C2 on [busyHook]. *)
Lemma run_ignores_isProcessing_witness :
  currentLoaded busyHook = Some 0
  /\ run transcoder clip (Sanitize noSanitizeOptions)
         (withProcessing false busyHook) =
       run transcoder clip (Sanitize noSanitizeOptions) busyHook.
Proof.
  split; [reflexivity |].
  exact (proj1 (run_ignores_isProcessing transcoder clip
                  (Sanitize noSanitizeOptions) busyHook 0 false eq_refl)).
Defined.

(** ** A delete that fails *)

(** C3 fails on [stuckDelete]: the write, the run and the read of the output
    succeed (the engine calls go as far as the first delete), and the call
    rejects with the error of the delete and records its message. *)
Lemma delete_failure_is_propagated :
  execThrows
    (execResult stuckDelete (builtArgs clip (Sanitize noSanitizeOptions))
       (<[ "input.mp4" := file_bytes clip ]> (filesOf 0 readyHook))) = None
  /\ calls (fst (run stuckDelete clip (Sanitize noSanitizeOptions) readyHook)) =
       calls readyHook
         ++ [CallWriteFile 0 "input.mp4" (file_bytes clip);
             CallExec 0 (builtArgs clip (Sanitize noSanitizeOptions));
             CallReadFile 0 "output.mp4";
             CallDeleteFile 0 "input.mp4"]
  /\ snd (run stuckDelete clip (Sanitize noSanitizeOptions) readyHook) =
       Rejected (ErrorObject "unlink failed")
  /\ error (state (fst (run stuckDelete clip (Sanitize noSanitizeOptions)
                            readyHook))) = Some "unlink failed".
Proof. repeat split; vm_compute; reflexivity. Qed.

(** C3, amended.  When the write, the run and the read of the output succeed
    and the delete of the staged input fails, or that delete succeeds and the
    delete of the staged output fails, the call rejects with the error of
    the failed delete, records its message in [error] and clears
    [isProcessing]; no blob is returned. *)
Theorem delete_failure_rejects (env : Env) (file : File) (op : Operation)
    (h : Hook) (id : nat) (err : Thrown) :
  let inputFileName := inName file in
  let outputFileName := outName file (outputFormatOf op) in
  let ran :=
    execResult env (builtArgs file op)
      (<[inputFileName := file_bytes file]> (filesOf id h)) in
  currentLoaded h = Some id ->
  fetchFileFault env file = None ->
  writeFileFault env inputFileName = None ->
  execThrows ran = None ->
  readFileFault env outputFileName = None ->
  is_Some (filesAfter ran !! outputFileName) ->
  deleteFileFault env inputFileName = Some err
  \/ (deleteFileFault env inputFileName = None
      /\ is_Some (filesAfter ran !! inputFileName)
      /\ deleteFileFault env outputFileName = Some err) ->
  snd (run env file op h) = Rejected err
  /\ error (state (fst (run env file op h))) =
       Some (messageOf (fallbackOf op) err)
  /\ isProcessing (state (fst (run env file op h))) = false.
Proof.
  intros i o ran Hc Hfetch Hwrite Hexec Hread [data Hout] Hdel.
  destruct (currentLoaded_instance h id Hc) as (_ & e & He & _).
  rewrite (run_stagedRun env file op h id Hc). unfold stagedRun.
  rewrite Hfetch.
  change (writeFileFault env (inName file)) with (writeFileFault env i).
  rewrite Hwrite.
  assert (Hran : runOf env id file (builtArgs file op) h = ran).
  { rewrite (runOf_files env id file _ h e He).
    unfold ran. now rewrite (filesOf_instance id h e He). }
  rewrite Hran, Hexec.
  change (readFileFault env (outName file (outputFormatOf op)))
    with (readFileFault env o).
  rewrite Hread.
  rewrite (files_reading env id file (outputFormatOf op) _ h e He), Hran.
  change (filesAfter ran !! outName file (outputFormatOf op))
    with (filesAfter ran !! o).
  rewrite Hout.
  change (deleteFileFault env (inName file)) with (deleteFileFault env i).
  destruct Hdel as [Hdel | (Hdel & [kept Hkept] & Hdel')]; rewrite Hdel.
  - repeat split.
  - rewrite (files_deletingInput env id file (outputFormatOf op) _ h e He), Hran.
    change (filesAfter ran !! inName file) with (filesAfter ran !! i).
    rewrite Hkept.
    change (deleteFileFault env (outName file (outputFormatOf op)))
      with (deleteFileFault env o).
    rewrite Hdel'. repeat split.
Qed.

(** The amended C3 on [stuckDelete]. *)
Lemma delete_failure_rejects_witness :
  currentLoaded readyHook = Some 0
  /\ deleteFileFault stuckDelete (inName clip) = Some (ErrorObject "unlink failed")
  /\ snd (run stuckDelete clip (Sanitize noSanitizeOptions) readyHook) =
       Rejected (ErrorObject "unlink failed").
Proof.
  split; [reflexivity | split; [reflexivity |]].
  refine (proj1 (delete_failure_rejects stuckDelete clip
                   (Sanitize noSanitizeOptions) readyHook 0
                   (ErrorObject "unlink failed")
                   eq_refl eq_refl eq_refl eq_refl eq_refl _ _)).
  - exists [Byte.x2a]. vm_compute. reflexivity.
  - left. reflexivity.
Defined.

(** ** The status fields over a run *)

(** Scenario E: the run reports 40 percent and rejects; afterwards the state
    shows no processing, 40 percent and the message of the error. *)
Example exec_rejects_status :
  state (fst (run rejectingExec clip (Sanitize noSanitizeOptions) readyHook)) =
    {| isLoaded := true; isProcessing := false; progress := 40;
       error := Some "Invalid data found when processing input" |}.
Proof. vm_compute. reflexivity. Qed.

(** A thrown value that is not an [Error] is recorded under the fallback
    text of the operation. *)
Example fallback_messages :
  messageOf (fallbackOf (Sanitize noSanitizeOptions)) fsError = "Sanitization failed"
  /\ messageOf (fallbackOf (PrivacyGrain noPrivacyGrainOptions)) fsError =
       "Privacy grain failed".
Proof. split; reflexivity. Qed.

(** C8 fails on [faultedHook]: [error] holds the message of the failed run,
    the next run also fails, and yet its first state update already shows
    [error] as null. *)
Lemma error_is_cleared_at_entry :
  error (state faultedHook) = Some "Invalid data found when processing input"
  /\ snd (run rejectingExec clip (PrivacyGrain noPrivacyGrainOptions) faultedHook) =
       Rejected (ErrorObject "Invalid data found when processing input")
  /\ error <$> (updates (fst (run rejectingExec clip
                                   (PrivacyGrain noPrivacyGrainOptions)
                                   faultedHook))
                  !! length (updates faultedHook)) = Some None.
Proof. repeat split; vm_compute; reflexivity. Qed.

(** C8, amended.  A run on a loaded engine first records the entry update:
    processing, 0 percent, [error] null.  When it resolves, the state shows
    no processing, 100 percent and [error] still null.  When it rejects, the
    last update is the failure update applied to the state [s] shown just
    before: no processing, the message of the error (or the fallback text),
    the percent of [s]; and [s] differs from the entry state in its percent
    only.  A [load] that completes the engine load sets [error] to null as
    well; a progress report and a [load] that finds the engine loaded leave
    [error] as it is. *)
Theorem run_status (env : Env) (file : File) (op : Operation) (h : Hook)
    (id : nat) :
  currentLoaded h = Some id ->
  let h' := fst (run env file op h) in
  let r := snd (run env file op h) in
  (exists rest, updates h' = updates h ++ enterProcessing (state h) :: rest)
  /\ (forall b, r = Resolved b ->
        state h' =
          {| isLoaded := isLoaded (state h); isProcessing := false;
             progress := 100; error := None |})
  /\ (forall err, r = Rejected err ->
        exists earlier s,
          updates h' = earlier ++ [s; state h']
          /\ state h' = failProcessing (messageOf (fallbackOf op) err) s
          /\ s = withProgress (progress s) (enterProcessing (state h)))
  /\ (forall ffmpeg,
        error (state (fst (loadFinish ffmpeg EngineLoadResolves h))) = None)
  /\ (forall percents,
        error (state (reportProgress id percents h)) = error (state h))
  /\ error (state (fst (loadStart h))) = error (state h).
Proof.
  intros Hc h' r. pose proof (run_Run env file op h id Hc) as HR.
  apply Run_updates_and_state in HR. fold h' r in HR. destruct HR as [Hentry Hend].
  split; [exact Hentry |]. split; [| split; [| split; [| split]]].
  - intros b Hb. now rewrite Hb in Hend.
  - intros err Herr. now rewrite Herr in Hend.
  - reflexivity.
  - intros percents. now rewrite reportProgress_state.
  - unfold loadStart. now rewrite Hc.
Qed.

(** The amended C8 on a run that resolves and on a run that rejects. *)
Lemma run_status_witness :
  currentLoaded readyHook = Some 0
  /\ (forall b,
        snd (run transcoder clip (Sanitize noSanitizeOptions) readyHook) =
          Resolved b ->
        state (fst (run transcoder clip (Sanitize noSanitizeOptions) readyHook)) =
          {| isLoaded := isLoaded (state readyHook); isProcessing := false;
             progress := 100; error := None |})
  /\ (forall err,
        snd (run rejectingExec clip (Sanitize noSanitizeOptions) readyHook) =
          Rejected err ->
        exists earlier s,
          updates (fst (run rejectingExec clip (Sanitize noSanitizeOptions)
                            readyHook)) =
            earlier
              ++ [s; state (fst (run rejectingExec clip
                                     (Sanitize noSanitizeOptions) readyHook))]
          /\ state (fst (run rejectingExec clip (Sanitize noSanitizeOptions)
                             readyHook)) =
               failProcessing
                 (messageOf (fallbackOf (Sanitize noSanitizeOptions)) err) s
          /\ s = withProgress (progress s) (enterProcessing (state readyHook))).
Proof.
  split; [reflexivity | split].
  - exact (proj1 (proj2 (run_status transcoder clip (Sanitize noSanitizeOptions)
                           readyHook 0 eq_refl))).
  - exact (proj1 (proj2 (proj2 (run_status rejectingExec clip
                                  (Sanitize noSanitizeOptions) readyHook 0
                                  eq_refl)))).
Defined.

(** ** Two [load] calls in flight *)

Lemma engineLoads_calls h more :
  forall h', calls h' = calls h ++ more ->
  engineLoads h' = engineLoads h + length (List.filter isEngineLoad more).
Proof.
  intros h' E. unfold engineLoads. now rewrite E, List.filter_app, length_app.
Qed.

(** A [load] call that finds no loaded engine allocates a fresh object, makes
    it the current one and suspends; the engine is still not loaded. *)
Lemma loadStart_fresh h :
  currentLoaded h = None ->
  let n := length (instances h) in
  snd (loadStart h) = Some n
  /\ currentLoaded (fst (loadStart h)) = None
  /\ length (instances (fst (loadStart h))) = S n
  /\ ffmpegRef (fst (loadStart h)) = Some n
  /\ calls (fst (loadStart h)) = calls h ++ [CallNew n; CallOn n].
Proof.
  intros Hc n. unfold loadStart. rewrite Hc. cbn [fst snd].
  split; [reflexivity |]. split; [| split; [| split]].
  - unfold currentLoaded. cbn [ffmpegRef setRef logCall alterInstance setInstances instances].
    rewrite list_lookup_alter_eq.
    rewrite lookup_app_r by reflexivity.
    now rewrite Nat.sub_diag.
  - cbn [instances setRef logCall alterInstance setInstances].
    rewrite length_alter, length_app. cbn. fold n. lia.
  - reflexivity.
  - cbn. now rewrite <- app_assoc.
Qed.

Lemma loadFinish_effect ffmpeg r h :
  snd (loadFinish ffmpeg r h) = outcomeOf r
  /\ calls (fst (loadFinish ffmpeg r h)) =
       calls h ++ repeat (CallLoad ffmpeg) (loadsOf r)
  /\ length (instances (fst (loadFinish ffmpeg r h))) = length (instances h)
  /\ ffmpegRef (fst (loadFinish ffmpeg r h)) = ffmpegRef h.
Proof.
  destruct r as [err | err |];
    unfold loadFinish, tryCatch, throw, mbind, M_bind, setState, alterInstance;
    cbn [fst snd calls instances ffmpegRef setHookState logCall setInstances
         outcomeOf loadsOf repeat];
    repeat split; rewrite ?app_nil_r, ?length_alter; reflexivity.
Qed.

(** C9 fails on the initial hook: two [load] calls started before either is
    resumed call [ffmpeg.load] twice, on two engine objects; and when the
    second engine load rejects, the first caller sees its call resolve and
    the second sees its call reject. *)
Lemma two_loads_initialize_twice :
  engineLoads (fst (concurrentLoads EngineLoadResolves EngineLoadResolves
                      initialHook)) = 2
  /\ calls (fst (concurrentLoads EngineLoadResolves EngineLoadResolves
                   initialHook)) =
       [CallNew 0; CallOn 0; CallNew 1; CallOn 1; CallLoad 0; CallLoad 1]
  /\ snd (concurrentLoads EngineLoadResolves
            (EngineLoadRejects (ErrorObject "failed to import ffmpeg-core.js"))
            initialHook) =
       (Resolved tt,
        Rejected (ErrorObject "failed to import ffmpeg-core.js")).
Proof. repeat split. Qed.

(** C9, amended.  There is no shared initialization: when no loaded engine
    is current, each of two [load] calls started before either is resumed
    creates its own engine object, the later one becoming the current one;
    each call that gets past its [toBlobURL] fetches calls [ffmpeg.load] on
    its own object; and each caller gets the outcome of its own awaited
    steps. *)
Theorem each_load_call_initializes (h : Hook) (r1 r2 : LoadResult) :
  currentLoaded h = None ->
  let n := length (instances h) in
  let h' := fst (concurrentLoads r1 r2 h) in
  engineLoads h' = engineLoads h + loadsOf r1 + loadsOf r2
  /\ calls h' =
       calls h ++ [CallNew n; CallOn n; CallNew (S n); CallOn (S n)]
         ++ repeat (CallLoad n) (loadsOf r1)
         ++ repeat (CallLoad (S n)) (loadsOf r2)
  /\ length (instances h') = n + 2
  /\ ffmpegRef h' = Some (S n)
  /\ snd (concurrentLoads r1 r2 h) = (outcomeOf r1, outcomeOf r2).
Proof.
  intros Hc n h'. subst h'. unfold concurrentLoads.
  assert (Hn : length (instances h) = n) by reflexivity. clearbody n.
  destruct (loadStart_fresh h Hc) as (Hs1 & Hc1 & Hl1 & Hr1 & Hcalls1).
  rewrite Hn in Hs1, Hl1, Hr1, Hcalls1.
  destruct (loadStart h) as [h1 first]. cbn [fst snd] in *. subst first.
  destruct (loadStart_fresh h1 Hc1) as (Hs2 & _ & Hl2 & Hr2 & Hcalls2).
  rewrite Hl1 in Hs2, Hl2, Hr2, Hcalls2.
  destruct (loadStart h1) as [h2 second]. cbn [fst snd] in *. subst second.
  cbn [resumeLoad].
  destruct (loadFinish_effect n r1 h2) as (Ho1 & Hcalls3 & Hl3 & Hr3).
  destruct (loadFinish n r1 h2) as [h3 o1]. cbn [fst snd] in *.
  destruct (loadFinish_effect (S n) r2 h3) as (Ho2 & Hcalls4 & Hl4 & Hr4).
  destruct (loadFinish (S n) r2 h3) as [h4 o2]. cbn [fst snd] in *.
  cbn [fst snd].
  assert (Hcalls : calls h4 =
            calls h ++ [CallNew n; CallOn n; CallNew (S n); CallOn (S n)]
              ++ repeat (CallLoad n) (loadsOf r1)
              ++ repeat (CallLoad (S n)) (loadsOf r2)).
  { rewrite Hcalls4, Hcalls3, Hcalls2, Hcalls1. now rewrite <- !app_assoc. }
  split; [| split; [exact Hcalls | split; [| split]]].
  - rewrite (engineLoads_calls h _ h4 Hcalls).
    rewrite <- Nat.add_assoc. f_equal.
    now destruct r1, r2.
  - rewrite Hl4, Hl3, Hl2. lia.
  - now rewrite Hr4, Hr3.
  - now rewrite Ho1, Ho2.
Qed.

(** The amended C9 on the initial hook. *)
Lemma each_load_call_initializes_witness :
  currentLoaded initialHook = None
  /\ engineLoads (fst (concurrentLoads EngineLoadResolves EngineLoadResolves
                         initialHook)) =
       engineLoads initialHook + loadsOf EngineLoadResolves
         + loadsOf EngineLoadResolves.
Proof.
  split; [reflexivity |].
  exact (proj1 (each_load_call_initializes initialHook EngineLoadResolves
                  EngineLoadResolves eq_refl)).
Defined.

(** * Further properties of the hook *)

(** ** [getExtension] *)

Lemma isDot_true c : Str.isDot c = true <-> c = "."%char.
Proof. unfold Str.isDot. apply Ascii.eqb_eq. Qed.

Lemma noDot_app_dot (b e : string) : Str.noDot (b +:+ String "." e) = false.
Proof.
  induction b as [| c b IH]; [reflexivity |].
  simpl. rewrite IH. apply andb_false_r.
Qed.

Lemma nonDotsToEnd_app_dot (b e : string) :
  Str.nonDotsToEnd (b +:+ String "." e) = false.
Proof.
  destruct b as [| c b]; [reflexivity |].
  exact (noDot_app_dot (String c b) e).
Qed.

Lemma nonDotsToEnd_true (s : string) :
  Str.nonDotsToEnd s = true <-> s <> EmptyString /\ Str.noDot s = true.
Proof.
  destruct s as [| c r]; cbn [Str.nonDotsToEnd].
  - split; [discriminate | now intros [H _]].
  - split; [now split | now intros [_ H]].
Qed.

Lemma matchExt_shape (s m : string) :
  Str.matchExt s = Some m ->
  exists base ext,
    s = base +:+ m /\ m = String "." ext /\ ext <> EmptyString
    /\ Str.noDot ext = true.
Proof.
  induction s as [| c r IH]; [discriminate |].
  cbn [Str.matchExt].
  destruct (Str.isDot c && Str.nonDotsToEnd r) eqn:Hhere.
  - intros [= <-]. apply andb_true_iff in Hhere as [Hc Hr].
    apply isDot_true in Hc as ->. apply nonDotsToEnd_true in Hr as [Hne Hnd].
    now exists EmptyString, r.
  - intros Hm. destruct (IH Hm) as (base & ext & -> & Hshape).
    now exists (String c base), ext.
Qed.

Lemma matchExt_last (base ext : string) :
  ext <> EmptyString -> Str.noDot ext = true ->
  Str.matchExt (base +:+ String "." ext) = Some (String "." ext).
Proof.
  intros Hne Hnd. induction base as [| c b IH].
  - change (Str.matchExt (String "." ext) = Some (String "." ext)).
    cbn [Str.matchExt].
    now rewrite (proj2 (nonDotsToEnd_true ext) (conj Hne Hnd)).
  - simpl.
    now rewrite nonDotsToEnd_app_dot, andb_false_r.
Qed.

Lemma matchExt_noDot (s : string) :
  Str.noDot s = true -> Str.matchExt s = None.
Proof.
  induction s as [| c r IH]; [reflexivity |].
  cbn. intros [Hc Hr]%andb_true_iff.
  apply negb_true_iff in Hc. rewrite Hc. now apply IH.
Qed.

Lemma matchExt_trailing_dot (b : string) : Str.matchExt (b +:+ ".") = None.
Proof.
  induction b as [| c b IH]; [reflexivity |].
  simpl.
  now rewrite nonDotsToEnd_app_dot, andb_false_r.
Qed.

Lemma extension_shape (filename : string) :
  exists ext,
    getExtension filename = String "." ext
    /\ ext <> EmptyString
    /\ Str.noDot ext = true
    /\ ((exists base, filename = base +:+ getExtension filename)
        \/ (Str.matchExt filename = None /\ ext = "mp4")).
Proof.
  unfold getExtension. destruct (Str.matchExt filename) as [m |] eqn:Hm.
  - destruct (matchExt_shape _ _ Hm) as (base & ext & Hs & -> & Hne & Hnd).
    exists ext. repeat split; try assumption. left. now exists base.
  - exists "mp4". repeat split; try discriminate. now right.
Qed.

(** X1. Whatever the file name, the extension is a dot followed by one code
    unit or more, none of them a dot; and it is either the end of the name
    or, when the pattern does not match, the text [.mp4]. *)
Theorem getExtension_shape (filename : string) :
  exists ext,
    getExtension filename = String "." ext
    /\ ext <> EmptyString
    /\ Str.noDot ext = true
    /\ ((exists base, filename = base +:+ getExtension filename)
        \/ (Str.matchExt filename = None /\ ext = "mp4")).
Proof. exact (extension_shape filename). Qed.

(** X2. The extension of a name is what follows its last dot: for a name
    that ends in a dot and a non-empty text without dots, [getExtension]
    returns that dot and text, whatever comes before. *)
Theorem getExtension_last_dot_wins (base ext : string) :
  ext <> EmptyString ->
  Str.noDot ext = true ->
  getExtension (base +:+ String "." ext) = String "." ext.
Proof.
  intros Hne Hnd. unfold getExtension. now rewrite matchExt_last.
Qed.

Lemma getExtension_last_dot_wins_witness :
  "gz" <> EmptyString
  /\ Str.noDot "gz" = true
  /\ getExtension "archive.tar.gz" = ".gz".
Proof.
  split; [discriminate | split; [reflexivity |]].
  apply (getExtension_last_dot_wins "archive.tar" "gz");
    [discriminate | reflexivity].
Defined.

(** X3. The pattern fails to match, and [getExtension] answers [.mp4],
    exactly for the names without a dot and the names that end in a dot. *)
Theorem getExtension_fallback (filename : string) :
  (Str.matchExt filename = None
   <-> Str.noDot filename = true \/ exists b, filename = b +:+ ".")
  /\ (Str.matchExt filename = None -> getExtension filename = ".mp4").
Proof.
  split; [| unfold getExtension; now intros ->].
  split.
  - induction filename as [| c r IH]; [now left |].
    cbn [Str.matchExt].
    destruct (Str.isDot c && Str.nonDotsToEnd r) eqn:Hhere; [discriminate |].
    intros Hm. destruct (IH Hm) as [Hnd | (b & ->)].
    + destruct (Str.isDot c) eqn:Hc.
      * right. apply isDot_true in Hc as ->.
        destruct r as [| x r']; [now exists EmptyString |].
        cbn [andb Str.nonDotsToEnd] in Hhere. congruence.
      * left. cbn. now rewrite Hc, Hnd.
    + right. now exists (String c b).
  - intros [Hnd | (b & ->)];
      [now apply matchExt_noDot | apply matchExt_trailing_dot].
Qed.

(** X4. [getExtension] applied to an extension it returned gives the same
    extension. *)
Theorem getExtension_idempotent (filename : string) :
  getExtension (getExtension filename) = getExtension filename.
Proof.
  destruct (extension_shape filename) as (ext & -> & Hne & Hnd & _).
  unfold getExtension.
  change (String "." ext) with (EmptyString +:+ String "." ext) at 1.
  now rewrite (matchExt_last EmptyString ext Hne Hnd).
Qed.

Example getExtension_hidden_file : getExtension ".gitignore" = ".gitignore".
Proof. reflexivity. Qed.

(** ** [getMimeType] *)

Lemma lowerChar_idempotent (c : ascii) :
  Str.lowerChar (Str.lowerChar c) = Str.lowerChar c.
Proof. destruct c as [[] [] [] [] [] [] [] []]; reflexivity. Qed.

Lemma lowerChar_dot (c : ascii) : Str.lowerChar c = "."%char -> c = "."%char.
Proof. destruct c as [[] [] [] [] [] [] [] []]; cbv; congruence. Qed.

Lemma toLowerCase_idempotent (s : string) :
  Str.toLowerCase (Str.toLowerCase s) = Str.toLowerCase s.
Proof.
  induction s as [| c r IH]; [reflexivity |].
  cbn [Str.toLowerCase]. now rewrite lowerChar_idempotent, IH.
Qed.

Lemma ownProperty_registered (k v : string) :
  In (k, v) mimeTypes -> ownProperty k mimeTypes = Some v.
Proof.
  unfold mimeTypes. cbn [In]. intros H.
  repeat (destruct H as [[= <- <-] | H]; [reflexivity |]).
  contradiction.
Qed.

Lemma ownProperty_In (key v : string) (o : list (string * string)) :
  ownProperty key o = Some v -> In (key, v) o.
Proof.
  induction o as [| [k w] rest IH]; [discriminate |].
  cbn [ownProperty]. destruct (String.eqb k key) eqn:Hk.
  - intros [= ->]. apply String.eqb_eq in Hk as ->. now left.
  - intros H. right. now apply IH.
Qed.

Lemma registered_dotted (k v : string) :
  In (k, v) mimeTypes -> exists r, k = String "." r.
Proof.
  unfold mimeTypes. cbn [In]. intros H.
  repeat (destruct H as [[= <- <-] | H]; [eexists; reflexivity |]).
  contradiction.
Qed.

(** X5. The lookup ignores case, and every registered extension is found:
    an extension whose lower-cased form is a key of the table gets the type
    registered for that key, and an extension and its lower-cased form
    always get the same type. *)
Theorem getMimeType_case_insensitive (extension : string) :
  getMimeType (Str.toLowerCase extension) = getMimeType extension
  /\ (forall k v,
        In (k, v) mimeTypes -> Str.toLowerCase extension = k ->
        getMimeType extension = MimeString v).
Proof.
  split.
  - unfold getMimeType. now rewrite toLowerCase_idempotent.
  - intros k v Hin Hk. unfold getMimeType. rewrite Hk.
    now rewrite (ownProperty_registered k v Hin).
Qed.

Lemma getMimeType_dotted (r : string) :
  exists s,
    getMimeType (String "." r) = MimeString s
    /\ (s = "application/octet-stream"
        \/ In (Str.toLowerCase (String "." r), s) mimeTypes).
Proof.
  unfold getMimeType. cbn zeta.
  destruct (ownProperty _ mimeTypes) as [v |] eqn:Hown.
  - exists v. split; [reflexivity |]. right. now apply ownProperty_In.
  - exists "application/octet-stream". split; [reflexivity | now left].
Qed.

(** X6. With no output format given, the type of the result blob is always
    a string: the type registered for the file's extension, or
    [application/octet-stream]; the properties [mimeTypes] inherits are out
    of reach of an extension, which starts with a dot. *)
Theorem getMimeType_of_extension (filename : string) :
  exists s,
    getMimeType (outputExtOf None filename) = MimeString s
    /\ (s = "application/octet-stream"
        \/ In (Str.toLowerCase (getExtension filename), s) mimeTypes).
Proof.
  cbn [outputExtOf].
  destruct (extension_shape filename) as (ext & -> & _).
  apply getMimeType_dotted.
Qed.

(** X7. An output format is used as given.  One that does not start with a
    dot (as in [webm] for [.webm]) names the output [output] followed by
    that text, with no dot, and is never found in the table: the blob type
    is [application/octet-stream], or an inherited property of the table
    object. *)
Theorem outputFormat_without_dot (filename : string) (c : ascii) (r : string) :
  c <> "."%char ->
  let outputFormat := String c r in
  outputExtOf (Some outputFormat) filename = outputFormat
  /\ outputNameOf (outputExtOf (Some outputFormat) filename) =
       "output" +:+ outputFormat
  /\ ownProperty (Str.toLowerCase outputFormat) mimeTypes = None
  /\ (getMimeType outputFormat = MimeString "application/octet-stream"
      \/ getMimeType outputFormat = ObjectConstructor
      \/ getMimeType outputFormat = ObjectPrototype).
Proof.
  intros Hc f.
  assert (Hnone : ownProperty (Str.toLowerCase f) mimeTypes = None).
  { destruct (ownProperty _ mimeTypes) as [v |] eqn:Hown; [| reflexivity].
    apply ownProperty_In, registered_dotted in Hown as (k & Hk).
    injection Hk as Hk _. now apply lowerChar_dot in Hk. }
  repeat split; try assumption.
  unfold getMimeType. cbn zeta. rewrite Hnone.
  destruct (String.eqb _ "constructor"); [now right; left |].
  destruct (String.eqb _ "__proto__"); [now right; right | now left].
Qed.

Lemma outputFormat_without_dot_witness :
  "w"%char <> "."%char
  /\ outputNameOf (outputExtOf (Some "webm") "clip.mp4") = "outputwebm"
  /\ getMimeType "webm" = MimeString "application/octet-stream".
Proof.
  split; [discriminate |].
  destruct (outputFormat_without_dot "clip.mp4" "w" "ebm" ltac:(discriminate))
    as (_ & Hname & _ & _).
  split; [exact Hname | reflexivity].
Defined.

(** ** Runs on a loaded engine *)

Lemma staged_names_differ file outputFormat :
  inName file <> outName file outputFormat.
Proof.
  unfold inName, outName, inputNameOf, outputNameOf. simpl.
  intros E. injection E as E _. discriminate E.
Qed.

(** Rewrite the tests of [stagedRun] in terms of what [exec] leaves. *)
Ltac flat_run He :=
  unfold stagedRun;
  rewrite ?(files_reading _ _ _ _ _ _ _ He),
    ?(files_deletingInput _ _ _ _ _ _ _ He),
    ?(files_deletingOutput _ _ _ _ _ _ _ He),
    ?(runOf_files _ _ _ _ _ _ He).

(** X8. A run resolves exactly when the engine is loaded, no step throws,
    and the run of [exec] leaves both the output file and the staged input
    in place for the read and the two deletes. *)
Theorem run_resolves_iff (env : Env) (file : File) (op : Operation) (h : Hook) :
  (exists b, snd (run env file op h) = Resolved b)
  <->
  exists id,
    currentLoaded h = Some id
    /\ fetchFileFault env file = None
    /\ writeFileFault env (inName file) = None
    /\ execThrows (ranOf env file op (filesOf id h)) = None
    /\ readFileFault env (outName file (outputFormatOf op)) = None
    /\ is_Some (filesAfter (ranOf env file op (filesOf id h))
                  !! outName file (outputFormatOf op))
    /\ deleteFileFault env (inName file) = None
    /\ is_Some (filesAfter (ranOf env file op (filesOf id h)) !! inName file)
    /\ deleteFileFault env (outName file (outputFormatOf op)) = None.
Proof.
  pose proof (staged_names_differ file (outputFormatOf op)) as Hnames.
  split.
  - intros [b Hb]. destruct (currentLoaded h) as [id |] eqn:Hc.
    2: { rewrite (run_not_loaded env file op h Hc) in Hb. discriminate. }
    exists id. split; [reflexivity |].
    destruct (currentLoaded_instance h id Hc) as (_ & e & He & _).
    unfold ranOf. rewrite (filesOf_instance id h e He).
    revert Hb. rewrite (run_stagedRun env file op h id Hc). flat_run He.
    destruct (fetchFileFault env file); [discriminate |].
    destruct (writeFileFault env (inName file)); [discriminate |].
    destruct (execThrows _); [discriminate |].
    destruct (readFileFault env _); [discriminate |].
    destruct (filesAfter _ !! outName _ _) eqn:Hout; [| discriminate].
    destruct (deleteFileFault env (inName file)); [discriminate |].
    destruct (filesAfter _ !! inName _) eqn:Hin; [| discriminate].
    destruct (deleteFileFault env (outName _ _)); [discriminate |].
    intros _. repeat split; eauto.
  - intros (id & Hc & Hfetch & Hwrite & Hexec & Hread & [data Hout] & Hdel1
            & [kept Hin] & Hdel2).
    destruct (currentLoaded_instance h id Hc) as (_ & e & He & _).
    unfold ranOf in *. rewrite (filesOf_instance id h e He) in *.
    rewrite (run_stagedRun env file op h id Hc). flat_run He.
    rewrite Hfetch, Hwrite, Hexec, Hread, Hout, Hdel1, Hin, Hdel2.
    rewrite lookup_delete_ne by exact Hnames. rewrite Hout. eauto.
Qed.

Lemma Run_resolved_data env id file outputFormat args fallback h h' b :
  Run env id file outputFormat args fallback h h' (Resolved b) ->
  filesOf id (reading env id file outputFormat args h)
    !! outName file outputFormat = Some (blob_bytes b).
Proof. inversion 1; subst. assumption. Qed.

(** X9. When a run resolves, the blob holds the bytes that [exec] left
    under the output name, with the type looked up for the output
    extension; the engine has been called five times, in the order write,
    exec, read, delete input, delete output; and the engine's file system is
    what [exec] left, less the two staged names: any other file of the run
    stays. *)
Theorem resolved_run_result (env : Env) (file : File) (op : Operation)
    (h : Hook) (id : nat) (b : Blob) :
  currentLoaded h = Some id ->
  snd (run env file op h) = Resolved b ->
  let ran := ranOf env file op (filesOf id h) in
  let outputFileName := outName file (outputFormatOf op) in
  filesAfter ran !! outputFileName = Some (blob_bytes b)
  /\ blob_type b =
       getMimeType (outputExtOf (outputFormatOf op) (file_name file))
  /\ calls (fst (run env file op h)) =
       calls h ++ stagedCalls id file (outputFormatOf op) (builtArgs file op)
  /\ filesOf id (fst (run env file op h)) =
       delete outputFileName (delete (inName file) (filesAfter ran)).
Proof.
  intros Hc Hb ran out. pose proof (run_Run env file op h id Hc) as HR.
  rewrite Hb in HR.
  destruct (currentLoaded_instance h id Hc) as (_ & e & He & _).
  assert (Hran : runOf env id file (builtArgs file op) h = ran).
  { rewrite (runOf_files env id file _ h e He). unfold ran, ranOf.
    now rewrite (filesOf_instance id h e He). }
  rewrite (Run_resolved_hook _ _ _ _ _ _ _ _ _ HR).
  split; [| split; [| split]].
  - pose proof (Run_resolved_data _ _ _ _ _ _ _ _ _ HR) as Hdata.
    now rewrite (files_reading env id file _ _ h e He), Hran in Hdata.
  - exact (Run_blob_type _ _ _ _ _ _ _ _ _ HR).
  - exact (calls_deletingOutput env id file (outputFormatOf op)
             (builtArgs file op) h).
  - now rewrite (files_finished env id file _ _ h e He), Hran.
Qed.

Lemma resolved_run_result_witness :
  currentLoaded readyHook = Some 0
  /\ snd (run transcoder photo (Sanitize scenarioA) readyHook) =
       Resolved {| blob_bytes := [Byte.x2a]; blob_type := MimeString "image/jpeg" |}
  /\ filesAfter (ranOf transcoder photo (Sanitize scenarioA) (filesOf 0 readyHook))
       !! outName photo None = Some [Byte.x2a].
Proof.
  split; [reflexivity |].
  assert (Hb : snd (run transcoder photo (Sanitize scenarioA) readyHook) =
               Resolved {| blob_bytes := [Byte.x2a];
                           blob_type := MimeString "image/jpeg" |})
    by (vm_compute; reflexivity).
  split; [exact Hb |].
  exact (proj1 (resolved_run_result transcoder photo (Sanitize scenarioA)
                  readyHook 0 _ eq_refl Hb)).
Defined.

(** X12. The exit code of [exec] is not looked at: when [exec] resolves
    without leaving the output file, the run goes on to the read, which
    throws; the call rejects with that error and records it, no delete is
    called, and the engine's file system stays as [exec] left it. *)
Theorem exec_without_output (env : Env) (file : File) (op : Operation)
    (h : Hook) (id : nat) :
  let ran := ranOf env file op (filesOf id h) in
  currentLoaded h = Some id ->
  fetchFileFault env file = None ->
  writeFileFault env (inName file) = None ->
  execThrows ran = None ->
  readFileFault env (outName file (outputFormatOf op)) = None ->
  filesAfter ran !! outName file (outputFormatOf op) = None ->
  snd (run env file op h) = Rejected (noSuchFile env)
  /\ error (state (fst (run env file op h))) =
       Some (messageOf (fallbackOf op) (noSuchFile env))
  /\ calls (fst (run env file op h)) =
       calls h
         ++ take 3 (stagedCalls id file (outputFormatOf op) (builtArgs file op))
  /\ filesOf id (fst (run env file op h)) = filesAfter ran.
Proof.
  intros ran Hc Hfetch Hwrite Hexec Hread Hout.
  destruct (currentLoaded_instance h id Hc) as (_ & e & He & _).
  unfold ran, ranOf in *. rewrite (filesOf_instance id h e He) in *.
  rewrite (run_stagedRun env file op h id Hc). flat_run He.
  rewrite Hfetch, Hwrite, Hexec, Hread, Hout. cbn [fst snd].
  split; [reflexivity | split; [reflexivity | split]].
  - exact (calls_reading env id file (outputFormatOf op) (builtArgs file op) h).
  - change (filesOf id (caught (fallbackOf op) (noSuchFile env)
                          (reading env id file (outputFormatOf op)
                                   (builtArgs file op) h)))
      with (filesOf id (reading env id file (outputFormatOf op)
                                (builtArgs file op) h)).
    rewrite (files_reading env id file _ _ h e He).
    now rewrite (runOf_files env id file _ h e He).
Qed.

Lemma exec_without_output_witness :
  currentLoaded readyHook = Some 0
  /\ snd (run silentExec clip (Sanitize noSanitizeOptions) readyHook) =
       Rejected fsError
  /\ error (state (fst (run silentExec clip (Sanitize noSanitizeOptions)
                            readyHook))) = Some "Sanitization failed".
Proof.
  split; [reflexivity |].
  destruct (exec_without_output silentExec clip (Sanitize noSanitizeOptions)
              readyHook 0 eq_refl eq_refl eq_refl eq_refl eq_refl)
    as (Hr & He & _).
  - vm_compute. reflexivity.
  - split; [exact Hr | exact He].
Defined.



(** ** What a run leaves alone *)

Lemma reportProgress_ref id percents h :
  ffmpegRef (reportProgress id percents h) = ffmpegRef h.
Proof.
  unfold reportProgress. destruct (listening id h); [apply reports_ref | reflexivity].
Qed.

Lemma sameEngines_refl id h : sameEngines id h h.
Proof.
  repeat split. intros e He. exists (files e). rewrite He. now destruct e.
Qed.

Lemma sameEngines_logCall id h x c :
  sameEngines id h x -> sameEngines id h (logCall c x).
Proof. exact (fun H => H). Qed.

Lemma sameEngines_setHookState id h x s :
  sameEngines id h x -> sameEngines id h (setHookState s x).
Proof. exact (fun H => H). Qed.

Lemma sameEngines_reportProgress id h x percents :
  sameEngines id h x -> sameEngines id h (reportProgress id percents x).
Proof.
  unfold sameEngines.
  now rewrite reportProgress_ref, reportProgress_instances.
Qed.

Lemma sameEngines_setFiles id h x (g : FFmpeg -> gmap string (list byte)) :
  sameEngines id h x ->
  sameEngines id h (alterInstance id (fun e => setFiles (g e) e) x).
Proof.
  intros (Href & Hlen & Hother & Hid). unfold sameEngines.
  cbn [alterInstance setInstances ffmpegRef instances].
  split; [exact Href |]. split; [now rewrite length_alter |]. split.
  - intros j Hj. rewrite list_lookup_alter_ne by congruence. now apply Hother.
  - intros e He. destruct (Hid e He) as (fs & Hx).
    rewrite list_lookup_alter_eq, Hx. cbn. eauto.
Qed.

Create HintDb frames.

#[local] Hint Resolve sameEngines_refl sameEngines_logCall
  sameEngines_setHookState sameEngines_reportProgress : frames.

Section Frame.

Variable env : Env.
Variable id : nat.
Variable file : File.
Variable outputFormat : option string.
Variable args : list string.
Variable fallback : string.
Variable h : Hook.

Lemma sameEngines_written : sameEngines id h (written id file h).
Proof.
  unfold written, writing, entered.
  apply (sameEngines_setFiles id h _
           (fun e => <[inName file := file_bytes file]> (files e))).
  auto with frames.
Qed.

Lemma sameEngines_executed : sameEngines id h (executed env id file args h).
Proof.
  unfold executed, executing.
  apply (sameEngines_setFiles id h _
           (fun _ => filesAfter (runOf env id file args h))).
  pose proof sameEngines_written. auto with frames.
Qed.

Lemma sameEngines_deletingOutput :
  sameEngines id h (deletingOutput env id file outputFormat args h).
Proof.
  unfold deletingOutput, deletedInput, deletingInput, reading.
  apply sameEngines_logCall.
  apply (sameEngines_setFiles id h _
           (fun e => delete (inName file) (files e))).
  pose proof sameEngines_executed. auto with frames.
Qed.

Lemma sameEngines_finished :
  sameEngines id h (finished env id file outputFormat args h).
Proof.
  unfold finished, deletedOutput. apply sameEngines_setHookState.
  apply (sameEngines_setFiles id h _
           (fun e => delete (outName file outputFormat) (files e))).
  exact sameEngines_deletingOutput.
Qed.

Lemma Throws_sameEngines at_ err :
  Throws env id file outputFormat args h at_ err -> sameEngines id h at_.
Proof.
  pose proof sameEngines_executed. pose proof sameEngines_deletingOutput.
  destruct 1; try assumption;
    unfold deletingInput, reading, writing, entered; auto 6 with frames.
Qed.

Lemma Run_sameEngines h' r :
  Run env id file outputFormat args fallback h h' r -> sameEngines id h h'.
Proof.
  destruct 1 as [data _ _ _ _ | at_ err Hthrows].
  - exact sameEngines_finished.
  - apply sameEngines_setHookState. exact (Throws_sameEngines _ _ Hthrows).
Qed.

End Frame.

Lemma sameEngines_currentLoaded id h h' :
  sameEngines id h h' -> currentLoaded h = Some id -> currentLoaded h' = Some id.
Proof.
  intros (Href & _ & _ & Hid) Hc.
  destruct (currentLoaded_instance h id Hc) as (Hr & e & He & Hl).
  destruct (Hid e He) as (fs & Hx).
  unfold currentLoaded. rewrite Href, Hr, Hx. cbn. now rewrite Hl.
Qed.

Lemma run_engine_after (env : Env) (file : File) (op : Operation)
    (h : Hook) (id : nat) :
  currentLoaded h = Some id ->
  let h' := fst (run env file op h) in
  sameEngines id h h'
  /\ currentLoaded h' = Some id
  /\ isLoaded (state h') = isLoaded (state h).
Proof.
  intros Hc h'. pose proof (run_Run env file op h id Hc) as HR. fold h' in HR.
  pose proof (Run_sameEngines _ _ _ _ _ _ _ _ _ HR) as Hsame.
  pose proof (sameEngines_currentLoaded id h h' Hsame Hc) as Hc'.
  split; [exact Hsame |]. split; [exact Hc' |].
  apply Run_updates_and_state in HR as [_ Hend].
  destruct (snd (run env file op h)) as [b | err].
  - now rewrite Hend.
  - destruct Hend as (earlier & s & _ & -> & ->). reflexivity.
Qed.

(** X10. A run on the loaded engine [id] keeps the engine objects and the
    current one, changes no other object, and changes nothing of [id] but
    its files; the engine is still loaded afterwards, so the next run
    passes the loaded check, and [isLoaded] keeps its value. *)
Theorem run_keeps_engine (env : Env) (file : File) (op : Operation)
    (h : Hook) (id : nat) :
  currentLoaded h = Some id ->
  let h' := fst (run env file op h) in
  sameEngines id h h'
  /\ currentLoaded h' = Some id
  /\ isLoaded (state h') = isLoaded (state h).
Proof. exact (run_engine_after env file op h id). Qed.

Lemma run_keeps_engine_witness :
  currentLoaded readyHook = Some 0
  /\ currentLoaded (fst (run rejectingExec clip (Sanitize noSanitizeOptions)
                              readyHook)) = Some 0.
Proof.
  split; [reflexivity |].
  exact (proj1 (proj2 (run_keeps_engine rejectingExec clip
                         (Sanitize noSanitizeOptions) readyHook 0 eq_refl))).
Defined.

(** ** The states shown during a run *)

Lemma traced_entered h : traced h (entered h) [].
Proof. split; reflexivity. Qed.

Lemma traced_logCall h x shown c : traced h x shown -> traced h (logCall c x) shown.
Proof. exact (fun H => H). Qed.

Lemma traced_alterInstance h x shown id f :
  traced h x shown -> traced h (alterInstance id f x) shown.
Proof. exact (fun H => H). Qed.

Lemma traced_reportProgress h x id percents :
  traced h x [] ->
  traced h (reportProgress id percents x)
         (if listening id x then percents else []).
Proof.
  intros [Hu Hs]. unfold reportProgress. destruct (listening id x); [| now split].
  split.
  - rewrite reports_updates, Hu, Hs, <- app_assoc. reflexivity.
  - rewrite reports_state, Hs. cbn [shownAt withProgress progress enterProcessing List.last].
    reflexivity.
Qed.

Lemma listening_alter_files id (g : FFmpeg -> gmap string (list byte)) h :
  listening id (alterInstance id (fun e => setFiles (g e) e) h) = listening id h.
Proof.
  unfold listening. cbn [alterInstance setInstances instances].
  rewrite list_lookup_alter_eq. now destruct (instances h !! id).
Qed.

Section Trace.

Variable env : Env.
Variable id : nat.
Variable file : File.
Variable outputFormat : option string.
Variable args : list string.
Variable fallback : string.
Variable h : Hook.

Let shown : list Z :=
  if listening id h then reported (runOf env id file args h) else [].

Lemma traced_executed : traced h (executed env id file args h) shown.
Proof.
  unfold executed. apply traced_alterInstance.
  assert (Hl : listening id (executing id file args h) = listening id h).
  { unfold executing, written.
    exact (listening_alter_files id
             (fun e => <[inName file := file_bytes file]> (files e)) _). }
  unfold shown. rewrite <- Hl. apply traced_reportProgress.
  unfold executing, written, writing.
  apply traced_logCall, traced_alterInstance, traced_logCall, traced_entered.
Qed.

Lemma traced_deletingOutput :
  traced h (deletingOutput env id file outputFormat args h) shown.
Proof. exact traced_executed. Qed.

Lemma Throws_traced at_ err :
  Throws env id file outputFormat args h at_ err ->
  exists seen,
    traced h at_ seen
    /\ (seen = [] \/ seen = reported (runOf env id file args h))
    /\ (listening id h = true ->
        fetchFileFault env file = None ->
        writeFileFault env (inName file) = None ->
        seen = reported (runOf env id file args h)).
Proof.
  assert (Hshown : (shown = [] \/ shown = reported (runOf env id file args h))
                   /\ (listening id h = true ->
                       shown = reported (runOf env id file args h))).
  { unfold shown. destruct (listening id h); split; auto; discriminate. }
  destruct Hshown as [Hor Hexact].
  destruct 1 as [err Hfetch | err _ Hwrite | | | | | | |].
  1: { exists []. split; [apply traced_entered |]. split; [now left |].
       intros _ Hf. congruence. }
  1: { exists []. split; [apply traced_logCall, traced_entered |].
       split; [now left |]. intros _ _ Hw. congruence. }
  all: exists shown; split; [exact traced_executed | split; auto].
Qed.

Lemma Run_traced h' r :
  Run env id file outputFormat args fallback h h' r ->
  exists seen,
    updates h' = updates h ++ map (shownAt (state h)) (0%Z :: seen) ++ [state h']
    /\ state h' = lastUpdate fallback r (shownAt (state h) (List.last seen 0%Z))
    /\ (seen = [] \/ seen = reported (runOf env id file args h))
    /\ (listening id h = true ->
        fetchFileFault env file = None ->
        writeFileFault env (inName file) = None ->
        seen = reported (runOf env id file args h)).
Proof.
  destruct 1 as [data _ _ _ _ | at_ err Hthrows].
  - exists shown. destruct traced_deletingOutput as [Hu Hs].
    split; [| split; [| split]].
    + cbn [finished deletedOutput updates setHookState alterInstance setInstances].
      cbn [deletingOutput] in Hu. now rewrite Hu, <- app_assoc.
    + cbn [finished deletedOutput state setHookState alterInstance setInstances
             lastUpdate].
      cbn [deletingOutput] in Hs. now rewrite Hs.
    + unfold shown. destruct (listening id h); auto.
    + intros Hl _ _. unfold shown. now rewrite Hl.
  - destruct (Throws_traced _ _ Hthrows) as (seen & [Hu Hs] & Hor & Hexact).
    exists seen. split; [| split; [| split]]; try assumption.
    + cbn [caught updates setHookState]. now rewrite Hu, <- app_assoc.
    + cbn [caught state setHookState lastUpdate]. now rewrite Hs.
Qed.

End Trace.

(** X11. The states shown by a run on a loaded engine are: the entry state
    (processing, 0 percent, no error); then that state with each percent of
    a list [seen], in order; then one last state, which ends the processing.
    [seen] is empty or is the list of percents the run of [exec] reports; it
    is that list as soon as the engine has the progress listener and the
    run gets to [exec].  The percents are shown as reported: none is
    dropped, clamped or reordered. *)
Theorem run_shows (env : Env) (file : File) (op : Operation) (h : Hook)
    (id : nat) :
  currentLoaded h = Some id ->
  let h' := fst (run env file op h) in
  let r := snd (run env file op h) in
  let reports := reported (ranOf env file op (filesOf id h)) in
  exists seen,
    updates h' = updates h ++ map (shownAt (state h)) (0%Z :: seen) ++ [state h']
    /\ state h' =
         lastUpdate (fallbackOf op) r (shownAt (state h) (List.last seen 0%Z))
    /\ isProcessing (state h') = false
    /\ (seen = [] \/ seen = reports)
    /\ (listening id h = true ->
        fetchFileFault env file = None ->
        writeFileFault env (inName file) = None ->
        seen = reports).
Proof.
  intros Hc h' r reports. pose proof (run_Run env file op h id Hc) as HR.
  fold h' r in HR.
  destruct (currentLoaded_instance h id Hc) as (_ & e & He & _).
  assert (Hran : reported (runOf env id file (builtArgs file op) h) = reports).
  { rewrite (runOf_files env id file _ h e He). unfold reports, ranOf.
    now rewrite (filesOf_instance id h e He). }
  destruct (Run_traced _ _ _ _ _ _ _ _ _ HR) as (seen & Hu & Hs & Hor & Hexact).
  rewrite Hran in Hor, Hexact.
  exists seen. repeat split; try assumption.
  rewrite Hs. now destruct r.
Qed.

Lemma run_shows_witness :
  currentLoaded readyHook = Some 0
  /\ listening 0 readyHook = true
  /\ exists seen,
       updates (fst (run transcoder clip (Sanitize noSanitizeOptions) readyHook)) =
         updates readyHook
           ++ map (shownAt (state readyHook)) (0%Z :: seen)
           ++ [state (fst (run transcoder clip (Sanitize noSanitizeOptions)
                               readyHook))]
       /\ seen = [25%Z; 100%Z].
Proof.
  split; [reflexivity | split; [reflexivity |]].
  destruct (run_shows transcoder clip (Sanitize noSanitizeOptions) readyHook 0
              eq_refl) as (seen & Hu & _ & _ & _ & Hexact).
  exists seen. split; [exact Hu |].
  exact (Hexact eq_refl eq_refl eq_refl).
Defined.

(** ** [load] *)

Lemma alter_last {A : Type} (f : A -> A) (l : list A) (x : A) :
  alter f (length l) (l ++ [x]) = l ++ [f x].
Proof.
  rewrite alter_app_r_alt by reflexivity. now rewrite Nat.sub_diag.
Qed.

Lemma loadStart_instances h :
  currentLoaded h = None ->
  instances (fst (loadStart h)) = instances h ++ [addProgressListener newFFmpeg]
  /\ state (fst (loadStart h)) = state h
  /\ updates (fst (loadStart h)) = updates h.
Proof.
  intros Hc. unfold loadStart. rewrite Hc.
  cbn [fst instances state updates setRef logCall alterInstance setInstances].
  now rewrite alter_last.
Qed.

Lemma load_fresh_instance (l : list FFmpeg) (x : FFmpeg) :
  (l ++ [x]) !! length l = Some x.
Proof. now apply list_lookup_middle. Qed.

Lemma load_resolves_effect (h : Hook) :
  currentLoaded h = None ->
  let n := length (instances h) in
  let h' := fst (load EngineLoadResolves h) in
  snd (load EngineLoadResolves h) = Resolved tt
  /\ instances h' = instances h ++ [loadedEngine ∅]
  /\ currentLoaded h' = Some n
  /\ engineLoads h' = S (engineLoads h)
  /\ state h' =
       {| isLoaded := true; isProcessing := isProcessing (state h);
          progress := progress (state h); error := None |}.
Proof.
  intros Hc n h'.
  assert (Hinst : instances h' = instances h ++ [loadedEngine ∅]).
  { unfold h', load, loadStart, loadFinish, tryCatch, throw, mbind, M_bind, setState. rewrite Hc.
    cbn -[alter]. now rewrite !alter_last. }
  assert (Href : ffmpegRef h' = Some n).
  { unfold h', load, loadStart, loadFinish, tryCatch, throw, mbind, M_bind, setState. now rewrite Hc. }
  split; [| split; [exact Hinst | split; [| split]]].
  - unfold load, loadStart, loadFinish, tryCatch, throw, mbind, M_bind, setState.
    now rewrite Hc.
  - unfold currentLoaded. rewrite Href, Hinst. unfold n.
    now rewrite load_fresh_instance.
  - unfold h', load, loadStart, loadFinish, tryCatch, throw, mbind, M_bind, setState, engineLoads. rewrite Hc.
    cbn -[alter List.filter]. rewrite !List.filter_app, !length_app. cbn. lia.
  - unfold h', load, loadStart, loadFinish, tryCatch, throw, mbind, M_bind, setState. now rewrite Hc.
Qed.

(** X15. A [load] call that finds no loaded engine and whose engine load
    succeeds resolves, calls [ffmpeg.load] once, adds one engine object,
    loaded, listening to progress and with an empty file system, makes it
    the current one, and sets [isLoaded] and clears [error], leaving the
    other status fields. *)
Theorem load_success (h : Hook) :
  currentLoaded h = None ->
  let n := length (instances h) in
  let h' := fst (load EngineLoadResolves h) in
  snd (load EngineLoadResolves h) = Resolved tt
  /\ instances h' = instances h ++ [loadedEngine ∅]
  /\ currentLoaded h' = Some n
  /\ engineLoads h' = S (engineLoads h)
  /\ state h' =
       {| isLoaded := true; isProcessing := isProcessing (state h);
          progress := progress (state h); error := None |}.
Proof. exact (load_resolves_effect h). Qed.

Lemma load_success_witness :
  currentLoaded initialHook = None
  /\ currentLoaded (fst (load EngineLoadResolves initialHook)) = Some 0
  /\ instances (fst (load EngineLoadResolves initialHook)) = [loadedEngine ∅].
Proof.
  split; [reflexivity |].
  destruct (load_success initialHook eq_refl) as (_ & Hi & Hc & _).
  split; [exact Hc | exact Hi].
Defined.

Lemma load_rejects_effect (h : Hook) (r : LoadResult) (err : Thrown) :
  currentLoaded h = None ->
  loadFails r err ->
  let n := length (instances h) in
  let h' := fst (load r h) in
  snd (load r h) = Rejected err
  /\ error (state h') = Some (messageOf "Failed to load FFmpeg" err)
  /\ isLoaded (state h') = isLoaded (state h)
  /\ instances h' = instances h ++ [addProgressListener newFFmpeg]
  /\ ffmpegRef h' = Some n
  /\ currentLoaded h' = None
  /\ (forall env file op, run env file op h' = (h', Rejected notLoadedError))
  /\ currentLoaded (fst (load EngineLoadResolves h')) = Some (S n).
Proof.
  intros Hc Hr n h'.
  assert (Hinst : instances h' = instances h ++ [addProgressListener newFFmpeg]).
  { unfold h', load, loadStart, loadFinish, tryCatch, throw, mbind, M_bind, setState. rewrite Hc.
    destruct Hr as [-> | ->]; cbn -[alter]; now rewrite alter_last. }
  assert (Href : ffmpegRef h' = Some n).
  { unfold h', load, loadStart, loadFinish, tryCatch, throw, mbind, M_bind, setState. rewrite Hc. now destruct Hr as [-> | ->]. }
  assert (Hc' : currentLoaded h' = None).
  { unfold currentLoaded. rewrite Href, Hinst. unfold n.
    now rewrite load_fresh_instance. }
  repeat split; try assumption.
  - unfold load, loadStart, loadFinish, tryCatch, throw, mbind, M_bind, setState.
    rewrite Hc. now destruct Hr as [-> | ->].
  - unfold h', load, loadStart, loadFinish, tryCatch, throw, mbind, M_bind, setState. rewrite Hc. now destruct Hr as [-> | ->].
  - unfold h', load, loadStart, loadFinish, tryCatch, throw, mbind, M_bind, setState. rewrite Hc. now destruct Hr as [-> | ->].
  - intros env file op. now apply run_not_loaded.
  - destruct (load_resolves_effect h' Hc') as (_ & _ & Hnext & _).
    rewrite Hnext, Hinst, length_app. cbn. f_equal. unfold n. lia.
Qed.

(** X16. A [load] call that finds no loaded engine and whose fetches or
    engine load fail rejects with the error, records its message (or
    [Failed to load FFmpeg] for a thrown value that is not an [Error]), and
    leaves [isLoaded] as it was.  The engine object it created stays the
    current one, not loaded, so every run is turned away with the
    not-loaded error; and a new [load] starts over with one more object. *)
Theorem load_failure (h : Hook) (r : LoadResult) (err : Thrown) :
  currentLoaded h = None ->
  loadFails r err ->
  let n := length (instances h) in
  let h' := fst (load r h) in
  snd (load r h) = Rejected err
  /\ error (state h') = Some (messageOf "Failed to load FFmpeg" err)
  /\ isLoaded (state h') = isLoaded (state h)
  /\ instances h' = instances h ++ [addProgressListener newFFmpeg]
  /\ ffmpegRef h' = Some n
  /\ currentLoaded h' = None
  /\ (forall env file op, run env file op h' = (h', Rejected notLoadedError))
  /\ currentLoaded (fst (load EngineLoadResolves h')) = Some (S n).
Proof. exact (load_rejects_effect h r err). Qed.

Lemma load_failure_witness :
  currentLoaded initialHook = None
  /\ loadFails (BlobURLRejects (NotAnError "TypeError: Failed to fetch"))
               (NotAnError "TypeError: Failed to fetch")
  /\ error (state (fst (load (BlobURLRejects
                                (NotAnError "TypeError: Failed to fetch"))
                             initialHook))) = Some "Failed to load FFmpeg".
Proof.
  split; [reflexivity | split; [now left |]].
  exact (proj1 (proj2 (load_failure initialHook _ _ eq_refl
                         (or_introl eq_refl)))).
Defined.

(** X14. Once a [load] has succeeded, a further [load] does nothing: it
    resolves whatever the network would answer, makes no engine call,
    creates no object, and leaves the status as it is. *)
Theorem load_again_does_nothing (h : Hook) (r : LoadResult) :
  let h1 := fst (load EngineLoadResolves h) in
  let h2 := fst (load r h1) in
  snd (load r h1) = Resolved tt
  /\ calls h2 = calls h1
  /\ instances h2 = instances h1
  /\ ffmpegRef h2 = ffmpegRef h1
  /\ state h2 = state h1.
Proof.
  intros h1 h2.
  assert (Hloaded : exists id, currentLoaded h1 = Some id
                               /\ isLoaded (state h1) = true).
  { destruct (currentLoaded h) as [id |] eqn:Hc.
    - exists id. unfold h1, load, loadStart. rewrite Hc. now split.
    - destruct (load_resolves_effect h Hc) as (_ & _ & Hc1 & _ & Hs).
      eexists. split; [exact Hc1 |]. fold h1 in Hs. now rewrite Hs. }
  destruct Hloaded as (id & Hc1 & Hl).
  unfold h2, load, loadStart. rewrite Hc1. cbn [fst snd].
  repeat split. cbn [state setHookState]. rewrite <- Hl. now destruct (state h1).
Qed.

(** ** [isLoaded] and the engine *)

Lemma loadedAsShown_perform (c : HookCall) (h : Hook) :
  loadedAsShown h -> loadedAsShown (perform c h).
Proof.
  unfold loadedAsShown. intros Hinv.
  destruct c as [r | env file op]; cbn [perform].
  - destruct (currentLoaded h) as [id |] eqn:Hc.
    + unfold load, loadStart. rewrite Hc. cbn [fst].
      change (currentLoaded (setHookState _ h)) with (currentLoaded h).
      rewrite Hc. now split.
    + destruct r as [err | err |].
      * destruct (load_rejects_effect h (BlobURLRejects err) err Hc
                    (or_introl eq_refl)) as (_ & _ & -> & _ & _ & -> & _).
        exact Hinv.
      * destruct (load_rejects_effect h (EngineLoadRejects err) err Hc
                    (or_intror eq_refl)) as (_ & _ & -> & _ & _ & -> & _).
        exact Hinv.
      * destruct (load_resolves_effect h Hc) as (_ & _ & -> & _ & ->).
        now split.
  - destruct (currentLoaded h) as [id |] eqn:Hc.
    + destruct (run_engine_after env file op h id Hc) as (_ & -> & ->).
      exact Hinv.
    + rewrite (run_not_loaded env file op h Hc). cbn [fst]. now rewrite Hc.
Qed.

(** X17. Whatever [load] and run calls are made one after the other from
    the initial hook, each run to its end before the next, and whatever
    their outcomes, the state says loaded exactly when the current engine
    is loaded. *)
Theorem sequential_calls_show_loaded (cs : list HookCall) :
  loadedAsShown (performAll cs initialHook).
Proof.
  assert (Hall : forall h, loadedAsShown h -> loadedAsShown (performAll cs h)).
  { induction cs as [| c cs IH]; intros h Hinv; [exact Hinv |].
    apply (IH (perform c h)). now apply loadedAsShown_perform. }
  apply Hall. unfold loadedAsShown. cbn. split; [discriminate |].
  intros [x Hx]. discriminate.
Qed.

Lemma loadFinish_resolves_effect ffmpeg h :
  instances (fst (loadFinish ffmpeg EngineLoadResolves h)) =
    alter setLoaded ffmpeg (instances h)
  /\ ffmpegRef (fst (loadFinish ffmpeg EngineLoadResolves h)) = ffmpegRef h
  /\ isLoaded (state (fst (loadFinish ffmpeg EngineLoadResolves h))) = true.
Proof. repeat split. Qed.

Lemma loadFinish_rejects_effect ffmpeg r err h :
  loadFails r err ->
  instances (fst (loadFinish ffmpeg r h)) = instances h
  /\ ffmpegRef (fst (loadFinish ffmpeg r h)) = ffmpegRef h
  /\ isLoaded (state (fst (loadFinish ffmpeg r h))) = isLoaded (state h)
  /\ snd (loadFinish ffmpeg r h) = Rejected err.
Proof. intros [-> | ->]; repeat split. Qed.

(** X18. Two [load] calls in flight together can leave the hook saying
    loaded with no loaded engine behind it: when the first call's engine
    load succeeds and the second call's fetches or engine load fail, the
    first caller sees its call resolve and [isLoaded] is true, but the
    current engine is the second call's object, which is not loaded, so
    every run is turned away with the not-loaded error. *)
Theorem concurrent_load_failure_hides_engine (h : Hook) (r2 : LoadResult)
    (err : Thrown) :
  currentLoaded h = None ->
  loadFails r2 err ->
  let h' := fst (concurrentLoads EngineLoadResolves r2 h) in
  snd (concurrentLoads EngineLoadResolves r2 h) = (Resolved tt, Rejected err)
  /\ isLoaded (state h') = true
  /\ currentLoaded h' = None
  /\ ~ loadedAsShown h'
  /\ (forall env file op, run env file op h' = (h', Rejected notLoadedError)).
Proof.
  intros Hc Hr h'. subst h'. unfold concurrentLoads.
  destruct (loadStart_fresh h Hc) as (Hs1 & Hc1 & _ & _ & _).
  destruct (loadStart_instances h Hc) as (Hi1 & _ & _).
  destruct (loadStart h) as [h1 first]. cbn [fst snd] in *. subst first.
  destruct (loadStart_fresh h1 Hc1) as (Hs2 & _ & _ & Hr2 & _).
  destruct (loadStart_instances h1 Hc1) as (Hi2 & _ & _).
  destruct (loadStart h1) as [h2 second]. cbn [fst snd] in *. subst second.
  cbn [resumeLoad].
  destruct (loadFinish_resolves_effect (length (instances h)) h2)
    as (Hi3 & Hr3 & Hl3).
  assert (Ho1 : snd (loadFinish (length (instances h)) EngineLoadResolves h2) =
                Resolved tt) by reflexivity.
  destruct (loadFinish (length (instances h)) EngineLoadResolves h2) as [h3 o1].
  cbn [fst snd] in *. subst o1.
  destruct (loadFinish_rejects_effect (length (instances h1)) r2 err h3 Hr)
    as (Hi4 & Hr4 & Hl4 & Ho2).
  destruct (loadFinish (length (instances h1)) r2 h3) as [h4 o2].
  cbn [fst snd] in *. subst o2.
  assert (Hloaded : isLoaded (state h4) = true) by now rewrite Hl4.
  assert (Hcur : currentLoaded h4 = None).
  { unfold currentLoaded. rewrite Hr4, Hr3, Hr2, Hi4, Hi3, Hi2.
    rewrite list_lookup_alter_ne by (rewrite Hi1, length_app; cbn; lia).
    now rewrite load_fresh_instance. }
  repeat split; try assumption.
  - unfold loadedAsShown. rewrite Hcur, Hloaded. intros [Himp _].
    destruct (Himp eq_refl) as [x Hx]. discriminate.
  - intros env file op. now apply run_not_loaded.
Qed.

Lemma concurrent_load_failure_hides_engine_witness :
  currentLoaded initialHook = None
  /\ loadFails (EngineLoadRejects (ErrorObject "failed to import ffmpeg-core.js"))
               (ErrorObject "failed to import ffmpeg-core.js")
  /\ isLoaded (state (fst (concurrentLoads EngineLoadResolves
                             (EngineLoadRejects
                                (ErrorObject "failed to import ffmpeg-core.js"))
                             initialHook))) = true
  /\ currentLoaded (fst (concurrentLoads EngineLoadResolves
                           (EngineLoadRejects
                              (ErrorObject "failed to import ffmpeg-core.js"))
                           initialHook)) = None.
Proof.
  split; [reflexivity | split; [now right |]].
  destruct (concurrent_load_failure_hides_engine initialHook
              (EngineLoadRejects (ErrorObject "failed to import ffmpeg-core.js"))
              (ErrorObject "failed to import ffmpeg-core.js") eq_refl
              (or_intror eq_refl)) as (_ & Hl & Hc & _).
  split; [exact Hl | exact Hc].
Defined.

(** * Properties of the components *)

(** ** [downloadBlob] and [handleDownload] *)

Lemma revoke_fresh (p : Page) (l : list nat) :
  Forall (fun url => url < created p) l ->
  List.filter (fun u => negb (Nat.eqb u (created p))) (l ++ [created p]) = l.
Proof.
  intros Hok. rewrite List.filter_app. cbn. rewrite Nat.eqb_refl. cbn.
  rewrite app_nil_r. induction Hok as [| u l Hu Hl IH]; [reflexivity |].
  cbn. rewrite IH. now rewrite (proj2 (Nat.eqb_neq u (created p))) by lia.
Qed.

Lemma downloadBlob_effect (blob : Blob) (filename : string) (p : Page) :
  pageOk p ->
  downloadBlob blob filename p =
    {| created := S (created p); live := live p;
       downloads := downloads p ++ [(blob, filename)];
       consoleErrors := consoleErrors p |}.
Proof.
  intros Hok. unfold downloadBlob, createObjectURL, clickLink, revokeObjectURL.
  cbn. now rewrite revoke_fresh.
Qed.

Lemma pageOk_created (p : Page) :
  pageOk p -> pageOk (fst (createObjectURL p)).
Proof.
  unfold pageOk. cbn. intros Hok. apply Forall_app. split.
  - eapply Forall_impl; [exact Hok |]. cbn. lia.
  - repeat constructor.
Qed.

(** X19. A video is downloaded as it is: [handleDownload] triggers one
    download of the file's own bytes and type under the file's own name,
    whatever the adjustments and whatever the browser can decode; the
    processing flag is not touched, nothing is logged, and the object URL
    made for the link is revoked. *)
Theorem video_download_is_the_file (browser : Browser) (f : Upload)
    (a : Adjustments) (btn : Download.Button) (p : Page) :
  pageOk p ->
  Download.isVideo f = true ->
  let '(btn', p') := Download.handleDownload browser f a (btn, p) in
  btn' = btn
  /\ downloads p' =
       downloads p
         ++ [({| blob_bytes := file_bytes (up_file f);
                 blob_type := MimeString (up_type f) |},
              file_name (up_file f))]
  /\ live p' = live p
  /\ consoleErrors p' = consoleErrors p.
Proof.
  intros Hok Hvideo. unfold Download.handleDownload. rewrite Hvideo.
  rewrite (downloadBlob_effect _ _ p Hok). repeat split.
Qed.

Lemma video_download_is_the_file_witness :
  pageOk emptyPage
  /\ Download.isVideo clipUpload = true
  /\ downloads (snd (Download.handleDownload blindBrowser clipUpload warm
                       (Download.idleButton, emptyPage))) =
       [({| blob_bytes := file_bytes clip; blob_type := MimeString "video/mp4" |},
         "clip.mp4")].
Proof.
  split; [constructor | split; [reflexivity |]].
  pose proof (video_download_is_the_file blindBrowser clipUpload warm
                Download.idleButton emptyPage ltac:(constructor) eq_refl) as H.
  destruct (Download.handleDownload blindBrowser clipUpload warm
              (Download.idleButton, emptyPage)) as [btn' p'].
  exact (proj1 (proj2 H)).
Defined.

(** X20. For a file that is not a video and that the browser decodes and
    encodes, [handleDownload] triggers one download: the encoded bytes,
    typed [image/jpeg] when the file's type is exactly [image/jpeg] and
    [image/png] otherwise, under the name of the file with its extension
    replaced by [-edited.jpg] or [-edited.png].  The processing flag is set
    and then cleared, and the object URL that [processImage] makes for the
    image stays live. *)
Theorem image_download (browser : Browser) (f : Upload) (a : Adjustments)
    (btn : Download.Button) (p : Page) (bytes : list byte) :
  pageOk p ->
  Download.isVideo f = false ->
  decodes browser f = true ->
  context2d browser = true ->
  encodes browser f a (Download.formatOf f) = Some bytes ->
  let '(btn', p') := Download.handleDownload browser f a (btn, p) in
  Download.processing btn' = false
  /\ Download.processingSet btn' = Download.processingSet btn ++ [true; false]
  /\ downloads p' =
       downloads p
         ++ [({| blob_bytes := bytes;
                 blob_type :=
                   MimeString
                     (if String.eqb (up_type f) "image/jpeg" then "image/jpeg"
                      else "image/png") |},
              Download.baseName (file_name (up_file f))
                +:+ (if String.eqb (up_type f) "image/jpeg" then "-edited.jpg"
                     else "-edited.png"))]
  /\ live p' = live p ++ [created p]
  /\ consoleErrors p' = consoleErrors p.
Proof.
  intros Hok Hvideo Hdec Hctx Henc.
  unfold Download.handleDownload, processImage.
  rewrite Hvideo, Hdec, Hctx, Henc. cbn [negb fst snd createObjectURL].
  rewrite (downloadBlob_effect _ _ _ (pageOk_created p Hok)).
  cbn [Download.processing Download.processingSet Download.setIsProcessing
       downloads live consoleErrors fst createObjectURL].
  rewrite <- app_assoc. unfold Download.editedName, Download.formatOf.
  destruct (String.eqb (up_type f) "image/jpeg"); repeat split.
Qed.

Lemma image_download_witness :
  pageOk emptyPage
  /\ Download.isVideo photoUpload = false
  /\ downloads (snd (Download.handleDownload plainBrowser photoUpload warm
                       (Download.idleButton, emptyPage))) =
       [({| blob_bytes := [Byte.x2a]; blob_type := MimeString "image/jpeg" |},
         "photo-edited.jpg")].
Proof.
  split; [constructor | split; [reflexivity |]].
  pose proof (image_download plainBrowser photoUpload warm Download.idleButton
                emptyPage [Byte.x2a] ltac:(constructor) eq_refl eq_refl eq_refl
                eq_refl) as H.
  destruct (Download.handleDownload plainBrowser photoUpload warm
              (Download.idleButton, emptyPage)) as [btn' p'].
  exact (proj1 (proj2 (proj2 H))).
Defined.

(** X21. When the image cannot be processed (it does not decode, there is
    no 2D context, or the encoding gives no blob), [handleDownload] still
    ends normally: nothing is downloaded, the one error of [processImage]
    is logged to the console, the processing flag is set and then cleared,
    and the object URL made for the image stays live. *)
Theorem image_failure_is_swallowed (browser : Browser) (f : Upload)
    (a : Adjustments) (btn : Download.Button) (p : Page) :
  Download.isVideo f = false ->
  decodes browser f = false
  \/ context2d browser = false
  \/ encodes browser f a (Download.formatOf f) = None ->
  let '(btn', p') := Download.handleDownload browser f a (btn, p) in
  Download.processing btn' = false
  /\ Download.processingSet btn' = Download.processingSet btn ++ [true; false]
  /\ downloads p' = downloads p
  /\ (exists err, In err processImageErrors
                  /\ consoleErrors p' = consoleErrors p ++ [err])
  /\ live p' = live p ++ [created p].
Proof.
  intros Hvideo Hfail.
  unfold Download.handleDownload, processImage. rewrite Hvideo.
  cbn [createObjectURL fst snd].
  assert (Hset : forall b0 : Download.Button,
            Download.processingSet
              (Download.setIsProcessing false (Download.setIsProcessing true b0)) =
            Download.processingSet b0 ++ [true; false]).
  { intros b0. cbn. now rewrite <- app_assoc. }
  destruct (decodes browser f) eqn:Hdec; cbn [negb].
  2: { repeat split; [apply Hset |]. eexists. split; [| reflexivity]. now left. }
  destruct (context2d browser) eqn:Hctx; cbn [negb].
  2: { repeat split; [apply Hset |]. eexists. split; [| reflexivity].
       right. now left. }
  destruct Hfail as [Hf | [Hf | Hf]]; try discriminate.
  rewrite Hf. repeat split; [apply Hset |]. eexists. split; [| reflexivity].
  right. right. now left.
Qed.

Lemma image_failure_is_swallowed_witness :
  Download.isVideo photoUpload = false
  /\ decodes blindBrowser photoUpload = false
  /\ downloads (snd (Download.handleDownload blindBrowser photoUpload warm
                       (Download.idleButton, emptyPage))) = [].
Proof.
  split; [reflexivity | split; [reflexivity |]].
  pose proof (image_failure_is_swallowed blindBrowser photoUpload warm
                Download.idleButton emptyPage eq_refl (or_introl eq_refl)) as H.
  destruct (Download.handleDownload blindBrowser photoUpload warm
              (Download.idleButton, emptyPage)) as [btn' p'].
  exact (proj1 (proj2 (proj2 H))).
Defined.

(** ** The name of the edited image *)





Example edited_name_plain :
  Download.baseName "holiday.photo.JPG" = "holiday.photo"
  /\ Download.baseName "README" = "README"
  /\ Download.baseName ".bashrc" = EmptyString.
Proof. repeat split. Qed.

(** ** [App], [FileUpload] and [AdjustmentPanel] *)

Lemma hasChanges_false (a : Adjustments) :
  hasChanges a = false <-> a = defaultAdjustments.
Proof.
  destruct a as [b c s]. unfold hasChanges, defaultAdjustments. cbn.
  split.
  - intros H. apply orb_false_iff in H as [H Hs].
    apply orb_false_iff in H as [Hb Hc].
    apply negb_false_iff, Z.eqb_eq in Hb, Hc, Hs. now subst.
  - now intros [= -> -> ->].
Qed.

Ltac app_simpl :=
  unfold unmountUpload;
  cbn [file adjustments isDragging setIsDragging setAdjustments handleReset
       handleClear handleFileSelect handleDrop handleChange].

Lemma appOk_react (e : UserEvent) (s : AppState) : appOk s -> appOk (react e s).
Proof.
  intros [Hadj Hdrag]. unfold react, appOk.
  destruct (file s) as [f |] eqn:Hf.
  - assert (Hnd : isDragging s = false).
    { destruct (isDragging s); [| reflexivity].
      now discriminate (Hdrag eq_refl). }
    destruct e; try destruct (hasChanges (adjustments s)); app_simpl;
      rewrite ?Hf, ?Hnd; split; intros; congruence.
  - specialize (Hadj eq_refl).
    destruct e as [| | | fs | fs | | |];
      try destruct fs as [[| first rest] |];
      app_simpl; try destruct (acceptedType first);
      app_simpl; rewrite ?Hf, ?Hadj; app_simpl; rewrite ?Hf, ?Hadj;
      split; intros; congruence.
Qed.

(** X23. Whatever the user does, starting from the first render: while no
    file is selected the adjustments are the defaults (the sliders of a
    cleared or replaced file are never carried over to the next file, and
    the reset button is hidden), and the upload surface is shown as dragged
    over only while no file is selected. *)
Theorem app_keeps_defaults (es : list UserEvent) :
  let s := reactAll es initialApp in
  (file s = None -> adjustments s = defaultAdjustments)
  /\ (file s = None -> hasChanges (adjustments s) = false)
  /\ (isDragging s = true -> file s = None).
Proof.
  assert (Hall : forall s, appOk s -> appOk (reactAll es s)).
  { induction es as [| e es IH]; intros s Hs; [exact Hs |].
    apply (IH (react e s)). now apply appOk_react. }
  destruct (Hall initialApp) as [Hadj Hdrag].
  { split; [reflexivity | discriminate]. }
  cbn zeta. repeat split; try assumption.
  intros Hnone. apply hasChanges_false. now apply Hadj.
Qed.

Lemma dropped_react (e : UserEvent) (s : AppState) :
  isBrowse e = false ->
  (forall f, file s = Some f -> acceptedType f = true) ->
  forall f, file (react e s) = Some f -> acceptedType f = true.
Proof.
  intros He Hs f. unfold react. destruct (file s) as [g |] eqn:Hg.
  - destruct e; try destruct (hasChanges (adjustments s)); app_simpl;
      rewrite ?Hg; intros [= <-]; now apply Hs.
  - destruct e as [| | | fs | fs | | |]; try discriminate He;
      try destruct fs as [[| first rest] |];
      app_simpl; try destruct (acceptedType first) eqn:Hacc;
      app_simpl; rewrite ?Hg; app_simpl; rewrite ?Hg; try discriminate.
    now intros [= <-].
Qed.

(** X24. A drop never selects a file of another kind: as long as files are
    chosen by dropping them only, the selected file, if any, has a type
    that starts with [image/] or [video/].  The file input has no such
    check: browsing selects the first file whatever its type. *)
Theorem dropped_file_is_media (es : list UserEvent) :
  droppedOnly es ->
  (forall f, file (reactAll es initialApp) = Some f -> acceptedType f = true)
  /\ (forall f rest,
        file (react (Browse (Some (f :: rest))) initialApp) = Some f).
Proof.
  intros Hes. split; [| reflexivity].
  assert (Hall : forall s,
            (forall f, file s = Some f -> acceptedType f = true) ->
            forall f, file (reactAll es s) = Some f -> acceptedType f = true).
  { revert Hes. unfold droppedOnly.
    induction es as [| e es IH]; intros Hes s Hs; [exact Hs |].
    cbn in Hes. apply andb_true_iff in Hes as [He Hes].
    apply negb_true_iff in He.
    apply (IH Hes (react e s)). now apply dropped_react. }
  apply Hall. discriminate.
Qed.

Lemma dropped_file_is_media_witness :
  droppedOnly [DragEnter; Drop (Some [photoUpload; clipUpload]); Slide KeyContrast 5]
  /\ forall f,
       file (reactAll [DragEnter; Drop (Some [photoUpload; clipUpload]);
                       Slide KeyContrast 5] initialApp) = Some f ->
       acceptedType f = true.
Proof.
  split; [reflexivity |].
  exact (proj1 (dropped_file_is_media
                  [DragEnter; Drop (Some [photoUpload; clipUpload]);
                   Slide KeyContrast 5] eq_refl)).
Defined.
